(** * verse-studio: the iris background component

    A shallow embedding of the two variants of the animated iris component,
    [src/components/ThreeIrisBG.jsx] (module [ThreeIrisBG] below) and
    [src/components/ThreeIris.jsx] (module [ThreeIris]), and of the GLSL
    fragment shader they share.

    JavaScript numbers are IEEE-754 binary64 values.  The JavaScript code is
    embedded once, over an interface [JSNumber] of the arithmetic it uses, and
    read at two instances: [float] (Rocq's primitive binary64 floats, the
    arithmetic the engine performs) and [R] (the real numbers, the arithmetic
    the formulas of the specification are written in).  The fragment shader
    is embedded over [R]. *)

From Stdlib Require Import Floats.
From Stdlib Require Import Reals Lra Lia ZArith QArith Qabs List Bool String.
Import ListNotations.

Set Implicit Arguments.

(** ** Numbers *)

(** The arithmetic of a JavaScript number, as far as the component uses it:
    decimal literals, the four operations, and [ToBoolean] (for [x || 0]). *)
Class JSNumber (F : Type) : Type := {
  lit : Q -> F;
  jadd : F -> F -> F;
  jsub : F -> F -> F;
  jmul : F -> F -> F;
  jdiv : F -> F -> F;
  truthy : F -> bool
}.

Arguments lit {F _} _%_Q.

(** The members of [Math] the component uses. *)
Class JSMath (F : Type) : Type := {
  Math_PI : F;
  Math_cos : F -> F;
  Math_sin : F -> F
}.

Declare Scope js_scope.
Delimit Scope js_scope with js.
Infix "+" := jadd : js_scope.
Infix "-" := jsub : js_scope.
Infix "*" := jmul : js_scope.
Infix "/" := jdiv : js_scope.

(** A loop counter: a small non-negative integer, exact in either instance. *)
Definition of_nat {F} `{JSNumber F} (n : nat) : F := lit (inject_Z (Z.of_nat n)).

(** [x || y] on numbers. *)
Definition js_or {F} `{JSNumber F} (x y : F) : F := if truthy x then x else y.

(** *** Real numbers *)

Definition R_of_Q (q : Q) : R := (IZR (Qnum q) / IZR (Zpos (Qden q)))%R.

Definition R_truthy (x : R) : bool := if Req_dec_T x 0%R then false else true.

#[export] Instance R_number : JSNumber R := {|
  lit := R_of_Q;
  jadd := Rplus;
  jsub := Rminus;
  jmul := Rmult;
  jdiv := Rdiv;
  truthy := R_truthy
|}.

#[export] Instance R_math : JSMath R := {|
  Math_PI := PI;
  Math_cos := cos;
  Math_sin := sin
|}.

(** *** binary64 *)

Definition float_of_Z (z : Z) : float :=
  match z with
  | Z0 => PrimFloat.of_uint63 (Uint63.of_Z 0)
  | Zpos _ => PrimFloat.of_uint63 (Uint63.of_Z z)
  | Zneg p => PrimFloat.opp (PrimFloat.of_uint63 (Uint63.of_Z (Zpos p)))
  end.

(** A decimal literal denotes the binary64 value nearest to it: numerator and
    denominator are exact (below 2^53) and the division rounds once. *)
Definition float_of_Q (q : Q) : float :=
  PrimFloat.div (float_of_Z (Qnum q)) (float_of_Z (Zpos (Qden q))).

(** [ToBoolean] of a number is false on [+0], [-0] and [NaN]. *)
Definition float_truthy (x : float) : bool :=
  negb (PrimFloat.is_nan x || PrimFloat.is_zero x).

#[export] Instance float_number : JSNumber float := {|
  lit := float_of_Q;
  jadd := PrimFloat.add;
  jsub := PrimFloat.sub;
  jmul := PrimFloat.mul;
  jdiv := PrimFloat.div;
  truthy := float_truthy
|}.

(** [Math.cos] and [Math.sin] are implementation-approximated functions of
    the engine: they are parameters of the binary64 reading.  [Math.PI] is
    the binary64 value nearest to pi. *)
Definition float_math (cos64 sin64 : float -> float) : JSMath float := {|
  Math_PI := 0x1.921fb54442d18p+1%float;
  Math_cos := cos64;
  Math_sin := sin64
|}.

(** The exact rational value of a finite binary64 number ([0] on infinities
    and [NaN], which the statements below exclude by [is_finite]). *)
Definition float_val (x : float) : Q :=
  match Prim2SF x with
  | S754_finite s m e =>
      (if s then -1 else 1) * inject_Z (Zpos m) * Qpower 2 e
  | _ => 0
  end.

Definition is_finite (x : float) : bool :=
  match Prim2SF x with
  | S754_zero _ | S754_finite _ _ _ => true
  | _ => false
  end.

(** ** Host values *)

Module Host.

(** The JavaScript values the query can meet.  A host function is called
    with one string (the media query). *)
Inductive value : Type :=
| VUndefined
| VNull
| VBool (b : bool)
| VObject (prop : string -> value)
| VFunction (call : string -> value).

(** Evaluation either completes with a value or throws a [TypeError]. *)
Inductive completion : Type :=
| Normal (v : value)
| TypeError.

Definition bind (c : completion) (k : value -> completion) : completion :=
  match c with
  | Normal v => k v
  | TypeError => TypeError
  end.

(** [ToBoolean]. *)
Definition to_boolean (v : value) : bool :=
  match v with
  | VUndefined | VNull => false
  | VBool b => b
  | VObject _ | VFunction _ => true
  end.

(** [v.p]: throws on [undefined] and [null]; a missing property, and any
    property of a boolean or of a host function, is [undefined]. *)
Definition get (v : value) (p : string) : completion :=
  match v with
  | VUndefined | VNull => TypeError
  | VObject prop => Normal (prop p)
  | VBool _ | VFunction _ => Normal VUndefined
  end.

(** [f(arg)]: throws unless [f] is callable. *)
Definition call (f : value) (arg : string) : completion :=
  match f with
  | VFunction g => Normal (g arg)
  | _ => TypeError
  end.

Definition is_nullish (v : value) : bool :=
  match v with
  | VUndefined | VNull => true
  | _ => false
  end.

(** [a || b] and [a && b]; the right operand is evaluated on demand. *)
Definition or_else (a : value) (b : completion) : completion :=
  if to_boolean a then Normal a else b.

Definition and_then (a : value) (b : completion) : completion :=
  if to_boolean a then b else Normal a.

(** The host environment: [None] when [typeof window === "undefined"]. *)
Definition environment : Type := option value.

Definition query : string := "(prefers-reduced-motion: reduce)".

End Host.

(** ** Scene data *)

(** [THREE.Vector3]. *)
Record Vector3 (F : Type) : Type := mkVector3 { vx : F; vy : F; vz : F }.

(** An entry of [rings]: [{ radius: R, points: pts }]. *)
Record RingSpec (F : Type) : Type := mkRingSpec {
  radius : F;
  points : list (Vector3 F)
}.

Section Rings.
Context {F : Type} {N : JSNumber F} {M : JSMath F}.
Local Open Scope js_scope.

Definition steps : nat := 180.

(** The body of the inner loop: vertex [j] of the ring of radius [R]. *)
Definition ring_point (R : F) (j : nat) : Vector3 F :=
  let t := (of_nat j / of_nat steps) * Math_PI * lit 2 in
  mkVector3 (Math_cos t * R) (Math_sin t * R) (lit (-0.2)).

(** The body of the outer loop: ring [i]. *)
Definition ring (i : nat) : RingSpec F :=
  let R := lit 0.9 + of_nat i * lit 0.22 in
  mkRingSpec R (map (ring_point R) (seq 0 (steps + 1))).

(** [for (let i = 0; i < ringCount; i++) arr.push(...)]. *)
Definition build_rings (ringCount : nat) : list (RingSpec F) :=
  map ring (seq 0 ringCount).

Definition ringCount : nat := 3.

Definition rings : list (RingSpec F) := build_rings ringCount.

(** The position of node marker [k] of a ring. *)
Definition marker (r : RingSpec F) (k : nat) : Vector3 F :=
  let t := (of_nat k / lit 12) * Math_PI * lit 2 in
  let x := Math_cos t * radius r in
  let y := Math_sin t * radius r in
  mkVector3 x y (lit (-0.2)).

(** [Array.from({ length: 12 }).map((_, k) => ...)]. *)
Definition markers (r : RingSpec F) : list (Vector3 F) :=
  map (marker r) (seq 0 12).

End Rings.

(** ** Frame state *)

(** [group.current.rotation]: the Euler angles of a scene group. *)
Record Euler (F : Type) : Type := mkEuler { rot_x : F; rot_y : F; rot_z : F }.

(** A pointer sample [{ x, y }]. *)
Record Pointer (F : Type) : Type := mkPointer { ptr_x : F; ptr_y : F }.

(** The part of the renderer's root state a frame callback reads. *)
Record RootState (F : Type) : Type := mkRootState { pointer : Pointer F }.

(** What [IrisLens] mutates: [irisMat.uniforms.u_time.value] and the
    rotation of [group.current] ([None] while the ref is not attached). *)
Record Lens (F : Type) : Type := mkLens {
  u_time : F;
  lens_group : option (Euler F)
}.

(** The mutable state of the whole component: the group of [NeuralRings]
    and the state of [IrisLens]. *)
Record Scene (F : Type) : Type := mkScene {
  rings_group : option (Euler F);
  lens : Lens F
}.

(** The [frameloop] setting of the canvas. *)
Inductive FrameLoop : Type := Always | Demand.

Section InitialState.
Context {F : Type} `{JSNumber F}.

(** A fresh [Object3D] has rotation [(0, 0, 0)]; [u_time: { value: 0 }]. *)
Definition rotation0 : Euler F := mkEuler (lit 0) (lit 0) (lit 0).

Definition scene0 : Scene F :=
  mkScene (Some rotation0) (mkLens (lit 0) (Some rotation0)).

End InitialState.

(** ** [src/components/ThreeIrisBG.jsx] *)

Module ThreeIrisBG.

(** [if (typeof window === "undefined") return false;
     return window.matchMedia?.(query).matches || false;]
    An optional call short-circuits the rest of its chain. *)
Definition useReducedMotion (env : Host.environment) : Host.completion :=
  match env with
  | None => Host.Normal (Host.VBool false)
  | Some window =>
      Host.bind (Host.get window "matchMedia") (fun matchMedia =>
      Host.bind
        (if Host.is_nullish matchMedia then Host.Normal Host.VUndefined
         else Host.bind (Host.call matchMedia Host.query)
                (fun mql => Host.get mql "matches"))
        (fun v => Host.or_else v (Host.Normal (Host.VBool false))))
  end.

Section FrameDriver.
Context {F : Type} `{JSNumber F}.
Local Open Scope js_scope.

(** [if (!reduceMotion && group.current) group.current.rotation.z += dt * 0.03] *)
Definition NeuralRings_useFrame
  (reduceMotion : bool) (group : option (Euler F)) (dt : F) : option (Euler F) :=
  match group with
  | Some g =>
      if negb reduceMotion
      then Some (mkEuler (rot_x g) (rot_y g) (rot_z g + dt * lit 0.03))
      else group
  | None => group
  end.

(** The frame callback of [IrisLens]; [pointerRef] is [pointerRef.current]
    at the time of the call. *)
Definition IrisLens_useFrame
  (reduceMotion : bool) (pointerRef : Pointer F) (l : Lens F) (dt : F) : Lens F :=
  let l :=
    if negb reduceMotion
    then mkLens (u_time l + dt)
           (match lens_group l with
            | Some g => Some (mkEuler (rot_x g) (rot_y g) (rot_z g + dt * lit 0.1))
            | None => None
            end)
    else l in
  let p := pointerRef in
  let targetX := js_or (ptr_y p) (lit 0) * lit 0.12 in
  let targetY := js_or (ptr_x p) (lit 0) * lit 0.12 in
  match lens_group l with
  | Some g =>
      let x := rot_x g + (targetX - rot_x g) * lit 0.075 in
      let y := rot_y g + (targetY - rot_y g) * lit 0.075 in
      mkLens (u_time l) (Some (mkEuler x y (rot_z g)))
  | None => l
  end.

(** One rendered frame: the renderer calls both subscribed callbacks. *)
Definition frame
  (reduceMotion : bool) (s : Scene F) (input : Pointer F * F) : Scene F :=
  let '(pointerRef, dt) := input in
  mkScene (NeuralRings_useFrame reduceMotion (rings_group s) dt)
          (IrisLens_useFrame reduceMotion pointerRef (lens s) dt).

Definition run
  (reduceMotion : bool) (inputs : list (Pointer F * F)) (s : Scene F) : Scene F :=
  fold_left (frame reduceMotion) inputs s.

End FrameDriver.

(** [frameloop={reduceMotion ? "demand" : "always"}] *)
Definition frameloop (reduceMotion : bool) : FrameLoop :=
  if reduceMotion then Demand else Always.

End ThreeIrisBG.

(** ** [src/components/ThreeIris.jsx] *)

Module ThreeIris.

(** [const prefers = typeof window !== "undefined" && window.matchMedia &&
       window.matchMedia(query).matches;
     return !!prefers;] *)
Definition useReducedMotion (env : Host.environment) : Host.completion :=
  let prefers :=
    match env with
    | None => Host.Normal (Host.VBool false)
    | Some window =>
        Host.bind (Host.get window "matchMedia") (fun matchMedia =>
        Host.and_then matchMedia
          (Host.bind (Host.get window "matchMedia") (fun f =>
           Host.bind (Host.call f Host.query)
             (fun mql => Host.get mql "matches"))))
    end in
  Host.bind prefers (fun v => Host.Normal (Host.VBool (Host.to_boolean v))).

Section FrameDriver.
Context {F : Type} `{JSNumber F}.
Local Open Scope js_scope.

(** [if (reduceMotion) return;
     if (group.current) { group.current.rotation.z += dt * 0.03; }] *)
Definition NeuralRings_useFrame
  (reduceMotion : bool) (group : option (Euler F)) (dt : F) : option (Euler F) :=
  if reduceMotion then group
  else match group with
       | Some g => Some (mkEuler (rot_x g) (rot_y g) (rot_z g + dt * lit 0.03))
       | None => group
       end.

(** The frame callback of [IrisLens]; the pointer is the renderer's. *)
Definition IrisLens_useFrame
  (reduceMotion : bool) (l : Lens F) (state : RootState F) (dt : F) : Lens F :=
  let l :=
    if negb reduceMotion
    then mkLens (u_time l + dt)
           (match lens_group l with
            | Some g => Some (mkEuler (rot_x g) (rot_y g) (rot_z g + dt * lit 0.1))
            | None => None
            end)
    else l in
  let pointer := pointer state in
  let targetX := js_or (ptr_y pointer) (lit 0) * lit 0.12 in
  let targetY := js_or (ptr_x pointer) (lit 0) * lit 0.12 in
  match lens_group l with
  | Some g =>
      let x := rot_x g + (targetX - rot_x g) * lit 0.075 in
      let y := rot_y g + (targetY - rot_y g) * lit 0.075 in
      mkLens (u_time l) (Some (mkEuler x y (rot_z g)))
  | None => l
  end.

Definition frame
  (reduceMotion : bool) (s : Scene F) (input : RootState F * F) : Scene F :=
  let '(state, dt) := input in
  mkScene (NeuralRings_useFrame reduceMotion (rings_group s) dt)
          (IrisLens_useFrame reduceMotion (lens s) state dt).

Definition run
  (reduceMotion : bool) (inputs : list (RootState F * F)) (s : Scene F) : Scene F :=
  fold_left (frame reduceMotion) inputs s.

End FrameDriver.

(** The canvas sets no [frameloop]; the renderer's default is ["always"]. *)
Definition frameloop (reduceMotion : bool) : FrameLoop := Always.

End ThreeIris.

(** ** The fragment shader *)

Module GLSL.
Local Open Scope R_scope.

Record vec2 : Type := mkvec2 { x2 : R; y2 : R }.
Record vec3 : Type := mkvec3 { x3 : R; y3 : R; z3 : R }.
Record vec4 : Type := mkvec4 { rgb : vec3; alpha : R }.

(** The uniforms of the iris material. *)
Record uniforms : Type := mkuniforms {
  u_time : R;
  u_primary : vec3;
  u_secondary : vec3;
  u_glint : vec3
}.

Section Builtins.

(** [atan(y, x)] is undefined at [x = y = 0]: the value an implementation
    returns there is a parameter. *)
Variable atan_origin : R.

Definition length (p : vec2) : R := sqrt (x2 p * x2 p + y2 p * y2 p).

Definition atan2 (y x : R) : R :=
  if Rlt_dec 0 x then atan (y / x)
  else if Rlt_dec x 0 then
    (if Rle_dec 0 y then atan (y / x) + PI else atan (y / x) - PI)
  else if Rlt_dec 0 y then PI / 2
  else if Rlt_dec y 0 then - PI / 2
  else atan_origin.

Definition clamp (x lo hi : R) : R := Rmin (Rmax x lo) hi.

(** [t = clamp((x - edge0) / (edge1 - edge0), 0, 1); t * t * (3 - 2 * t)],
    the formula by which GLSL defines [smoothstep].  The shaders also call
    it with descending edges ([0.99], [0.96]), where GLSL leaves the result
    formally undefined and implementations evaluate the same formula. *)
Definition smoothstep (edge0 edge1 x : R) : R :=
  let t := clamp ((x - edge0) / (edge1 - edge0)) 0 1 in
  t * t * (3 - 2 * t).

(** [mix(x, y, a) = x * (1 - a) + y * a], on floats and, with a float
    weight, componentwise on vectors. *)
Definition mix (x y a : R) : R := x * (1 - a) + y * a.

Definition mix3 (x y : vec3) (a : R) : vec3 :=
  mkvec3 (mix (x3 x) (x3 y) a) (mix (y3 x) (y3 y) a) (mix (z3 x) (z3 y) a).

(** [v *= k]. *)
Definition scale3 (v : vec3) (k : R) : vec3 :=
  mkvec3 (x3 v * k) (y3 v * k) (z3 v * k).

(** [vec2 toPolar(vec2 p){ float r=length(p), a=atan(p.y,p.x); return vec2(r,a); }] *)
Definition toPolar (p : vec2) : vec2 :=
  let r := length p in
  let a := atan2 (y2 p) (x2 p) in
  mkvec2 r a.

(** [main] of the fragment shader of [ThreeIrisBG.jsx]: [gl_FragColor] as a
    function of the uniforms and the varying [vUv]. *)
Definition main_BG (u : uniforms) (vUv : vec2) : vec4 :=
  let uv := mkvec2 (x2 vUv * 2 - 1) (y2 vUv * 2 - 1) in
  let polar := toPolar uv in
  let r := x2 polar in
  let a := y2 polar in
  let stripes := sin (a * 32 + r * 24 - u_time u * 0.6) * 0.5 + 0.5 in
  let fibers := sin (a * 96 - u_time u * 0.9) * 0.5 + 0.5 in
  let base := mix3 (u_primary u) (u_secondary u) (stripes * 0.7 + fibers * 0.3) in
  let glintMask :=
    smoothstep 0.68 0.86 r * (0.7 + 0.3 * sin (a * 6 + u_time u * 0.7)) in
  let base := mix3 base (u_glint u) (glintMask * 0.08) in
  let vignette := smoothstep 0 0.1 r in
  let base := scale3 base (mix 0.2 1 vignette) in
  let alpha := smoothstep 0.99 0.96 r in
  mkvec4 base alpha.

(** [main] of the fragment shader of [ThreeIris.jsx]: the same, with the
    unused local [ringBand]. *)
Definition main_Iris (u : uniforms) (vUv : vec2) : vec4 :=
  let uv := mkvec2 (x2 vUv * 2 - 1) (y2 vUv * 2 - 1) in
  let polar := toPolar uv in
  let r := x2 polar in
  let a := y2 polar in
  let stripes := sin (a * 32 + r * 24 - u_time u * 0.6) * 0.5 + 0.5 in
  let fibers := sin (a * 96 - u_time u * 0.9) * 0.5 + 0.5 in
  let ringBand := smoothstep 0.15 0.95 r * (1 - smoothstep 0.88 0.99 r) in
  let base := mix3 (u_primary u) (u_secondary u) (stripes * 0.7 + fibers * 0.3) in
  let glintMask :=
    smoothstep 0.68 0.86 r * (0.7 + 0.3 * sin (a * 6 + u_time u * 0.7)) in
  let base := mix3 base (u_glint u) (glintMask * 0.08) in
  let vignette := smoothstep 0 0.1 r in
  let base := scale3 base (mix 0.2 1 vignette) in
  let alpha := smoothstep 0.99 0.96 r in
  mkvec4 base alpha.

(** The alpha channel as a function of the radius. *)
Definition alpha_of (r : R) : R := smoothstep 0.99 0.96 r.

(** *** The colour function as the specification defines it *)

(** Linear interpolation from [a] to [b]. *)
Definition lerp (a b w : R) : R := a + (b - a) * w.

Definition lerp3 (a b : vec3) (w : R) : vec3 :=
  mkvec3 (lerp (x3 a) (x3 b) w) (lerp (y3 a) (y3 b) w) (lerp (z3 a) (z3 b) w).

Definition iris_reference (primary secondary glint : vec3) (t : R) (uv : vec2) : vec4 :=
  let p := mkvec2 (x2 uv * 2 - 1) (y2 uv * 2 - 1) in
  let r := length p in
  let a := atan2 (y2 p) (x2 p) in
  let stripes := 0.5 + 0.5 * sin (32 * a + 24 * r - 0.6 * t) in
  let fibers := 0.5 + 0.5 * sin (96 * a - 0.9 * t) in
  let base := lerp3 primary secondary (0.7 * stripes + 0.3 * fibers) in
  let base :=
    lerp3 base glint
      (0.08 * smoothstep 0.68 0.86 r * (0.7 + 0.3 * sin (6 * a + 0.7 * t))) in
  let base := scale3 base (lerp 0.2 1.0 (smoothstep 0.0 0.1 r)) in
  mkvec4 base (smoothstep 0.99 0.96 r).

End Builtins.
End GLSL.

(** ** Derived notions used by the statements *)

(** Lifting a pointer sample into the renderer's root state. *)
Definition with_pointer {F : Type} (input : Pointer F * F) : RootState F * F :=
  (mkRootState (fst input), snd input).

(** The lens rotation about an axis, when the group is attached. *)
Definition lens_rot {F : Type} (axis : Euler F -> F) (s : Scene F) : option F :=
  option_map axis (lens_group (lens s)).

Definition rings_rot {F : Type} (axis : Euler F -> F) (s : Scene F) : option F :=
  option_map axis (rings_group s).

(** One step of the pointer-follow smoothing of an angle towards the
    target derived from pointer coordinate [c]. *)
Definition follow {F : Type} `{JSNumber F} (c angle : F) : F :=
  (angle + (js_or c (lit 0) * lit 0.12 - angle) * lit 0.075)%js.

(** The pointer-follow rotation is gated by the motion preference: with
    reduced motion set, a frame leaves the lens tilt as it was. *)
Definition follow_gated {F : Type}
  (useFrame : bool -> Pointer F -> Lens F -> F -> Lens F) : Prop :=
  forall (p : Pointer F) (l : Lens F) (dt : F),
    option_map (fun g => (rot_x g, rot_y g)) (lens_group (useFrame true p l dt)) =
    option_map (fun g => (rot_x g, rot_y g)) (lens_group l).

(** The pointer-follow rotation is applied whatever the preference. *)
Definition follow_always {F : Type} `{JSNumber F}
  (useFrame : bool -> Pointer F -> Lens F -> F -> Lens F) : Prop :=
  forall (reduceMotion : bool) (p : Pointer F) (l : Lens F) (dt : F),
    option_map (fun g => (rot_x g, rot_y g))
      (lens_group (useFrame reduceMotion p l dt)) =
    option_map (fun g => (follow (ptr_y p) (rot_x g), follow (ptr_x p) (rot_y g)))
      (lens_group l).

Definition BG_lens {F : Type} `{JSNumber F} :
  bool -> Pointer F -> Lens F -> F -> Lens F :=
  ThreeIrisBG.IrisLens_useFrame.

Definition Iris_lens {F : Type} `{JSNumber F} :
  bool -> Pointer F -> Lens F -> F -> Lens F :=
  fun reduceMotion p l dt =>
    ThreeIris.IrisLens_useFrame reduceMotion l (mkRootState p) dt.

(** The two frame drivers differ as the specification's open question says:
    one gates the pointer-follow rotation, the other always applies it. *)
Definition drivers_differ_on_follow : Prop :=
  (follow_gated (F:=float) BG_lens /\ follow_always (F:=float) Iris_lens) \/
  (follow_gated (F:=float) Iris_lens /\ follow_always (F:=float) BG_lens).

(** The environment cannot answer the query: there is no [window], or its
    [matchMedia] is [undefined] or [null]. *)
Definition cannot_answer (env : Host.environment) : Prop :=
  env = None \/
  exists prop, env = Some (Host.VObject prop) /\
               Host.is_nullish (prop "matchMedia"%string) = true.

(** What the frame driver must leave alone under reduced motion. *)
Definition frozen_part {F : Type} (s : Scene F) : F * option F * option F :=
  (u_time (lens s), rings_rot (@rot_z F) s, lens_rot (@rot_z F) s).

(** The lens tilt about x after [n] frames with a fixed pointer sample and
    a constant [dt], in either variant. *)
Definition tilt_x_BG {F : Type} `{JSNumber F}
  (reduceMotion : bool) (p : Pointer F) (dt : F) (s : Scene F) (n : nat) : option F :=
  lens_rot (@rot_x F) (ThreeIrisBG.run reduceMotion (repeat (p, dt) n) s).

Definition tilt_x_Iris {F : Type} `{JSNumber F}
  (reduceMotion : bool) (p : Pointer F) (dt : F) (s : Scene F) (n : nat) : option F :=
  lens_rot (@rot_x F)
    (ThreeIris.run reduceMotion (repeat (mkRootState p, dt) n) s).

(** A trajectory that never decreases and never exceeds [bound]. *)
Definition rises_to {F : Type} (le : F -> F -> Prop) (bound : F)
  (traj : nat -> option F) : Prop :=
  forall n : nat, exists a b : F,
    traj n = Some a /\ traj (S n) = Some b /\ le a b /\ le b bound.

(** A trajectory that comes arbitrarily close to [limit] from below. *)
Definition approaches (limit : R) (traj : nat -> option R) : Prop :=
  forall eps : R, (0 < eps)%R ->
    exists N : nat, forall n : nat, (N <= n)%nat ->
      exists a : R, traj n = Some a /\ (0 <= limit - a < eps)%R.

Definition float_le (a b : float) : Prop := PrimFloat.leb a b = true.

(** Along [fuel] steps of [f] from [x], no step decreases and every value
    reached is at most [bound]. *)
Fixpoint rises_within (f : float -> float) (bound : float) (fuel : nat) (x : float) : bool :=
  match fuel with
  | O => true
  | S k =>
      PrimFloat.leb x (f x) && PrimFloat.leb (f x) bound &&
      rises_within f bound k (f x)
  end.

(** The number of frames after which the binary64 tilt is stationary. *)
Definition settle : nat := 445.

(** The end-to-end scenario: from the initial state, motion enabled, three
    frames with [dt = 0.016] and the pointer fixed at [(1, -1)]. *)
Definition scenario_inputs {F : Type} `{JSNumber F} : list (Pointer F * F) :=
  repeat (mkPointer (lit 1) (lit (-1)), lit 0.016) 3.

Definition scenario_BG {F : Type} `{JSNumber F} : Scene F :=
  ThreeIrisBG.run false scenario_inputs scene0.

Definition scenario_Iris {F : Type} `{JSNumber F} : Scene F :=
  ThreeIris.run false (map with_pointer scenario_inputs) scene0.

(** [x] is a finite binary64 number whose exact value is within [tol] of
    the rational [c]. *)
Definition within (tol : Q) (x : option float) (c : Q) : Prop :=
  match x with
  | Some v => is_finite v = true /\ Qabs (float_val v - c) <= tol
  | None => False
  end.

(** One unit of the [d]-th decimal place. *)
Definition decimal_place (d : nat) : Q := 1 / inject_Z (10 ^ Z.of_nat d).

(** The outcome of the scenario as the specification quotes it, each value
    read to the decimals quoted (within one unit of its last decimal
    place). *)
Definition end_to_end_as_stated (s : Scene float) : Prop :=
  within (decimal_place 3) (Some (u_time (lens s))) 0.048 /\
  within (decimal_place 4) (lens_rot (@rot_z float) s) 0.0048 /\
  within (decimal_place 5) (lens_rot (@rot_x float) s) (-0.02505).

(** The outcome of the scenario as the code computes it. *)
Definition end_to_end_outcome (s : Scene float) : Prop :=
  within (decimal_place 15) (Some (u_time (lens s))) 0.048 /\
  within (decimal_place 15) (lens_rot (@rot_z float) s) 0.0048 /\
  within (decimal_place 15) (lens_rot (@rot_x float) s) (-0.025025625).

(** ** The pointer sampler of [ThreeIrisBG.jsx] *)

(** The fields of a [mousemove] event the handler reads. *)
Record MouseEvent (F : Type) : Type := mkMouseEvent { clientX : F; clientY : F }.

(** [window.innerWidth] and [window.innerHeight] when the event arrives. *)
Record Viewport (F : Type) : Type := mkViewport { innerWidth : F; innerHeight : F }.

Module ViewportPointer.
Section Sampler.
Context {F : Type} `{JSNumber F}.
Local Open Scope js_scope.

(** [useRef({ x: 0, y: 0 })] *)
Definition initial : Pointer F := mkPointer (lit 0) (lit 0).

(** [const nx = (e.clientX / window.innerWidth) * 2 - 1;
     const ny = (e.clientY / window.innerHeight) * 2 - 1;
     ref.current.x = nx; ref.current.y = ny;] *)
Definition onMove (window : Viewport F) (e : MouseEvent F) (ref : Pointer F) : Pointer F :=
  let nx := (clientX e / innerWidth window) * lit 2 - lit 1 in
  let ny := (clientY e / innerHeight window) * lit 2 - lit 1 in
  mkPointer nx ny.

End Sampler.

(** The listeners of the window: event type, callback (by identity),
    capture flag and passive flag. *)
Record Listener : Type := mkListener {
  event_type : string;
  callback : nat;
  capture : bool;
  passive : bool
}.

(** Two registrations are the same listener when type, callback and
    capture flag agree; the passive flag is no part of the identity. *)
Definition same_listener (type : string) (cb : nat) (cap : bool) (l : Listener) : bool :=
  String.eqb type (event_type l) && Nat.eqb cb (callback l) && Bool.eqb cap (capture l).

(** [target.addEventListener]: a registration already present is ignored. *)
Definition addEventListener (l : Listener) (ls : list Listener) : list Listener :=
  if existsb (same_listener (event_type l) (callback l) (capture l)) ls
  then ls else ls ++ [l].

(** [target.removeEventListener]; without options the capture flag is false. *)
Definition removeEventListener (type : string) (cb : nat) (cap : bool)
  (ls : list Listener) : list Listener :=
  filter (fun l => negb (same_listener type cb cap l)) ls.

(** The effect of [useViewportPointer]:
    [window.addEventListener("mousemove", onMove, { passive: true })]. *)
Definition mount (onMove : nat) (ls : list Listener) : list Listener :=
  addEventListener (mkListener "mousemove" onMove false true) ls.

(** Its cleanup: [window.removeEventListener("mousemove", onMove)]. *)
Definition cleanup (onMove : nat) (ls : list Listener) : list Listener :=
  removeEventListener "mousemove" onMove false ls.

End ViewportPointer.

(** ** The mounted [ThreeIrisBG] component as an event loop *)

(** What the browser delivers to the mounted component: a mouse move (with
    the viewport size at that time) or a rendered frame. *)
Inductive Event (F : Type) : Type :=
| MouseMove (window : Viewport F) (e : MouseEvent F)
| RenderFrame (dt : F).

Arguments RenderFrame {F} dt.

(** The mutable state of the mounted component. *)
Record Component (F : Type) : Type := mkComponent {
  pointerRef : Pointer F;
  scene : Scene F
}.

Section EventLoop.
Context {F : Type} `{JSNumber F}.

Definition component0 : Component F := mkComponent ViewportPointer.initial scene0.

Definition handle (reduceMotion : bool) (c : Component F) (ev : Event F) : Component F :=
  match ev with
  | MouseMove window e =>
      mkComponent (ViewportPointer.onMove window e (pointerRef c)) (scene c)
  | RenderFrame dt =>
      mkComponent (pointerRef c)
        (ThreeIrisBG.frame reduceMotion (scene c) (pointerRef c, dt))
  end.

Definition exec (reduceMotion : bool) (events : list (Event F)) (c : Component F)
  : Component F :=
  fold_left (handle reduceMotion) events c.

End EventLoop.

(** ** Further derived notions *)

(** The lens tilt about x and y, when the group is attached. *)
Definition tilt_of {F : Type} (s : Scene F) : option (F * F) :=
  option_map (fun g => (rot_x g, rot_y g)) (lens_group (lens s)).

(** The tilt lies within [limit] of rest on both axes. *)
Definition tilt_within (limit : R) (s : Scene R) : Prop :=
  match tilt_of s with
  | Some (x, y) => (- limit <= x <= limit)%R /\ (- limit <= y <= limit)%R
  | None => True
  end.

(** A pointer sample inside the square [[-1, 1] x [-1, 1]]. *)
Definition in_square (p : Pointer R) : Prop :=
  (-1 <= ptr_x p <= 1)%R /\ (-1 <= ptr_y p <= 1)%R.

(** A mouse event inside a non-degenerate viewport. *)
Definition in_viewport (window : Viewport R) (e : MouseEvent R) : Prop :=
  (0 < innerWidth window)%R /\ (0 < innerHeight window)%R /\
  (0 <= clientX e <= innerWidth window)%R /\
  (0 <= clientY e <= innerHeight window)%R.

Definition event_in_viewport (ev : Event R) : Prop :=
  match ev with
  | MouseMove window e => in_viewport window e
  | RenderFrame _ => True
  end.

(** The sum of the elapsed times of a list of frames. *)
Definition elapsed (inputs : list (Pointer R * R)) : R :=
  fold_right Rplus 0%R (map snd inputs).

(** A colour with every channel in [[0, 1]]. *)
Definition colour_ok (c : GLSL.vec3) : Prop :=
  (0 <= GLSL.x3 c <= 1)%R /\ (0 <= GLSL.y3 c <= 1)%R /\ (0 <= GLSL.z3 c <= 1)%R.

(** The squared distance of two points in the plane of a ring. *)
Definition dist2 (p q : Vector3 R) : R :=
  ((vx p - vx q) * (vx p - vx q) + (vy p - vy q) * (vy p - vy q))%R.

(** A binary64 number that [ToBoolean] reads as false: [NaN], [+0] or [-0]. *)
Definition nan_or_zero (c : float) : Prop :=
  PrimFloat.is_nan c = true \/ PrimFloat.is_zero c = true.

(** The [frameloop] prop the canvas of [ThreeIrisBG] gets in a host
    environment: [const reduceMotion = useReducedMotion()] and then
    [frameloop={reduceMotion ? "demand" : "always"}]; [None] when the hook
    throws. *)
Definition ThreeIrisBG_canvas_frameloop (env : Host.environment) : option FrameLoop :=
  match ThreeIrisBG.useReducedMotion env with
  | Host.Normal reduceMotion =>
      Some (ThreeIrisBG.frameloop (Host.to_boolean reduceMotion))
  | Host.TypeError => None
  end.

(** * Properties *)

(** ** Literals and the initial frame *)

(** A decimal literal is read as the nearest binary64 value, and
    [Math.PI] is the literal [3.141592653589793]. *)
Example literal_nearest_binary64 :
  lit 0.9 = 0x1.ccccccccccccdp-1%float /\
  lit 0.12 = 0x1.eb851eb851eb8p-4%float /\
  lit 3.141592653589793 = Math_PI (JSMath := float_math (fun x => x) (fun x => x)).
Proof. repeat split; vm_compute; reflexivity. Qed.

(** The exact value of a binary64 number: [0.9] is read slightly above
    nine tenths. *)
Example literal_exact_value :
  float_val (lit 0.5) == 1 # 2 /\
  float_val (lit 0.9) - 0.9 == 1 # 45035996273704960.
Proof. split; vm_compute; reflexivity. Qed.

(** ** The two variants run the same frame driver *)

Section SameDriver.
Context {F : Type} `{JSNumber F}.

Lemma rings_useFrame_same (reduceMotion : bool) (g : option (Euler F)) (dt : F) :
  ThreeIris.NeuralRings_useFrame reduceMotion g dt =
  ThreeIrisBG.NeuralRings_useFrame reduceMotion g dt.
Proof. destruct reduceMotion, g; reflexivity. Qed.

Lemma lens_useFrame_same (reduceMotion : bool) (p : Pointer F) (l : Lens F) (dt : F) :
  ThreeIris.IrisLens_useFrame reduceMotion l (mkRootState p) dt =
  ThreeIrisBG.IrisLens_useFrame reduceMotion p l dt.
Proof. reflexivity. Qed.

Lemma frame_same (reduceMotion : bool) (s : Scene F) (input : Pointer F * F) :
  ThreeIris.frame reduceMotion s (with_pointer input) =
  ThreeIrisBG.frame reduceMotion s input.
Proof.
  destruct input as [p dt]. unfold ThreeIris.frame, ThreeIrisBG.frame, with_pointer.
  cbn [fst snd]. now rewrite rings_useFrame_same, lens_useFrame_same.
Qed.

Lemma run_same (reduceMotion : bool) (inputs : list (Pointer F * F)) (s : Scene F) :
  ThreeIris.run reduceMotion (map with_pointer inputs) s =
  ThreeIrisBG.run reduceMotion inputs s.
Proof.
  unfold ThreeIris.run, ThreeIrisBG.run. revert s.
  induction inputs as [|i inputs IH]; intros s; cbn [map fold_left].
  - reflexivity.
  - now rewrite frame_same, IH.
Qed.

(** What one frame does to the lens, by cases on the flag and the ref. *)
Lemma lens_useFrame_attached (reduceMotion : bool) (p : Pointer F) (t dt : F) (g : Euler F) :
  ThreeIrisBG.IrisLens_useFrame reduceMotion p (mkLens t (Some g)) dt =
  mkLens (if reduceMotion then t else jadd t dt)
    (Some (mkEuler (follow (ptr_y p) (rot_x g)) (follow (ptr_x p) (rot_y g))
             (if reduceMotion then rot_z g else jadd (rot_z g) (jmul dt (lit 0.1))))).
Proof. destruct reduceMotion; reflexivity. Qed.

Lemma lens_useFrame_detached (reduceMotion : bool) (p : Pointer F) (t dt : F) :
  ThreeIrisBG.IrisLens_useFrame reduceMotion p (mkLens t None) dt =
  mkLens (if reduceMotion then t else jadd t dt) None.
Proof. destruct reduceMotion; reflexivity. Qed.

End SameDriver.

(** ** Frame driver: motion enabled (C3) *)

(** C3.  With motion enabled (reduced-motion flag false) and both groups
    attached, one invocation of the frame driver with elapsed time [dt] adds
    [dt] to the shader time, [dt * 0.03] to the ring group's rotation about z
    and [dt * 0.1] to the lens group's rotation about z.  These are exactly
    the updates that depend on the elapsed time: the ring group's other
    angles stay, and the lens tilt about x and y takes its pointer-follow
    step, as at every frame.  This holds in both variants and in either
    reading of the arithmetic. *)
Theorem frame_driver_motion_enabled :
  forall (F : Type) (N : JSNumber F)
         (t dt : F) (rg lg : Euler F) (p : Pointer F),
    let s := mkScene (Some rg) (mkLens t (Some lg)) in
    let s' :=
      mkScene
        (Some (mkEuler (rot_x rg) (rot_y rg) (rot_z rg + dt * lit 0.03)%js))
        (mkLens (t + dt)%js
           (Some (mkEuler (follow (ptr_y p) (rot_x lg))
                          (follow (ptr_x p) (rot_y lg))
                          (rot_z lg + dt * lit 0.1)%js))) in
    ThreeIrisBG.frame false s (p, dt) = s' /\
    ThreeIris.frame false s (mkRootState p, dt) = s' /\
    u_time (lens s') = (u_time (lens s) + dt)%js /\
    rings_rot (@rot_z F) s' = option_map (fun z => z + dt * lit 0.03)%js (rings_rot (@rot_z F) s) /\
    lens_rot (@rot_z F) s' = option_map (fun z => z + dt * lit 0.1)%js (lens_rot (@rot_z F) s).
Proof.
  intros F N t dt rg lg p s s'.
  assert (HBG : ThreeIrisBG.frame false s (p, dt) = s').
  { unfold s, s', ThreeIrisBG.frame. cbn [rings_group lens].
    rewrite lens_useFrame_attached. reflexivity. }
  split; [exact HBG|].
  split.
  - change (mkRootState p, dt) with (with_pointer (p, dt)).
    now rewrite frame_same.
  - repeat split.
Qed.

(** ** Frame driver: reduced motion (C4) *)

Section Frozen.
Context {F : Type} `{JSNumber F}.

Lemma frame_reduced_frozen (s : Scene F) (input : Pointer F * F) :
  frozen_part (ThreeIrisBG.frame true s input) = frozen_part s.
Proof.
  destruct input as [p dt], s as [rg [t lg]].
  unfold frozen_part, ThreeIrisBG.frame, rings_rot, lens_rot. cbn [rings_group lens].
  destruct lg as [g|].
  - rewrite lens_useFrame_attached. destruct rg; reflexivity.
  - rewrite lens_useFrame_detached. destruct rg; reflexivity.
Qed.

Lemma run_reduced_frozen (inputs : list (Pointer F * F)) (s : Scene F) :
  frozen_part (ThreeIrisBG.run true inputs s) = frozen_part s.
Proof.
  unfold ThreeIrisBG.run. revert s.
  induction inputs as [|i inputs IH]; intros s; cbn [fold_left].
  - reflexivity.
  - rewrite IH. apply frame_reduced_frozen.
Qed.

End Frozen.

(** C4.  With the reduced-motion flag set, any number of invocations of the
    frame driver, with any elapsed times and pointer samples, leaves the
    shader time, the ring group's rotation about z and the lens group's
    rotation about z as they were initially; in both variants and in either
    reading of the arithmetic. *)
Theorem reduced_motion_freezes :
  forall (F : Type) (N : JSNumber F)
         (inputs : list (Pointer F * F)) (inputs' : list (RootState F * F))
         (s : Scene F),
    let unchanged (s' : Scene F) :=
      u_time (lens s') = u_time (lens s) /\
      rings_rot (@rot_z F) s' = rings_rot (@rot_z F) s /\
      lens_rot (@rot_z F) s' = lens_rot (@rot_z F) s in
    unchanged (ThreeIrisBG.run true inputs s) /\
    unchanged (ThreeIris.run true inputs' s).
Proof.
  intros F N inputs inputs' s unchanged.
  assert (HBG : forall l, unchanged (ThreeIrisBG.run true l s)).
  { intro l. pose proof (run_reduced_frozen l s) as E.
    unfold frozen_part in E. injection E as E1 E2 E3. now repeat split. }
  split.
  - apply HBG.
  - replace inputs' with (map with_pointer (map (fun i => (pointer (fst i), snd i)) inputs')).
    + rewrite run_same. apply HBG.
    + rewrite map_map. rewrite <- (map_id inputs') at 2.
      apply map_ext. intros [[q] dt]. reflexivity.
Qed.

(** ** The variants and the pointer-follow rotation (C8) *)

(** Neither variant gates the pointer-follow rotation: with reduced motion
    set, the lens at rest and the pointer at [(0, 1)], one frame tilts the
    lens about x from [0] to [0.009], in both variants. *)
Lemma follow_not_gated :
  ~ follow_gated (F:=float) BG_lens /\ ~ follow_gated (F:=float) Iris_lens.
Proof.
  assert (HBG : ~ follow_gated (F:=float) BG_lens).
  { intro G.
    specialize (G (mkPointer (lit 0) (lit 1)) (lens scene0) (lit 0.016)).
    apply (f_equal (fun o => match o with
                             | Some (x, _) => PrimFloat.eqb x (lit 0.009)
                             | None => false
                             end)) in G.
    vm_compute in G. discriminate G. }
  split; [exact HBG|].
  intro G. apply HBG. intros p l dt. apply (G p l dt).
Qed.

(** C8, as stated, fails: the frame drivers of the two variants do not
    differ on the pointer-follow rotation; neither gates it.  With the
    reduced-motion flag set, the lens at rest, the pointer at [(0, 1)] and
    [dt = 0.016], one frame moves the lens tilt about x from [0] to [0.009]
    in [ThreeIrisBG.jsx] and in [ThreeIris.jsx] alike. *)
Lemma drivers_do_not_differ_on_follow :
  option_map (@rot_x float)
    (lens_group (BG_lens true (mkPointer (lit 0) (lit 1)) (lens scene0) (lit 0.016)))
    = Some (lit 0.009) /\
  option_map (@rot_x float)
    (lens_group (Iris_lens true (mkPointer (lit 0) (lit 1)) (lens scene0) (lit 0.016)))
    = Some (lit 0.009) /\
  ~ drivers_differ_on_follow.
Proof.
  split; [vm_compute; reflexivity|].
  split; [vm_compute; reflexivity|].
  destruct follow_not_gated as [HBG HIris].
  intros [[G _]|[G _]]; [exact (HBG G)|exact (HIris G)].
Qed.

(** C8, amended.  The lens callbacks of the two variants are the same
    function of the flag, the pointer sample, the lens state and [dt]; in
    both, every invocation smooths the lens tilt about x and y towards the
    pointer target, whatever the reduced-motion flag.  The variants differ
    in the frame loop they request: [ThreeIrisBG.jsx] asks for on-demand
    frames when reduced motion is set, [ThreeIris.jsx] always renders
    continuously. *)
Theorem follow_applied_in_both_variants :
  forall (F : Type) (N : JSNumber F),
    (forall reduceMotion p l dt,
        Iris_lens reduceMotion p l dt = BG_lens reduceMotion p l dt) /\
    follow_always BG_lens /\
    follow_always Iris_lens /\
    ThreeIrisBG.frameloop true = Demand /\
    ThreeIrisBG.frameloop false = Always /\
    (forall reduceMotion, ThreeIris.frameloop reduceMotion = Always).
Proof.
  intros F N.
  assert (A : follow_always BG_lens).
  { intros rm p [t [g|]] dt; unfold BG_lens.
    - rewrite lens_useFrame_attached. reflexivity.
    - rewrite lens_useFrame_detached. reflexivity. }
  repeat split; try assumption.
Qed.

(** ** The reduced-motion query (C9) *)

(** When the environment answers, both variants return its answer. *)
Example reduced_motion_query_answered (answer : bool) :
  let mql := Host.VObject (fun _ => Host.VBool answer) in
  let window := Host.VObject (fun _ => Host.VFunction (fun _ => mql)) in
  ThreeIrisBG.useReducedMotion (Some window) = Host.Normal (Host.VBool answer) /\
  ThreeIris.useReducedMotion (Some window) = Host.Normal (Host.VBool answer).
Proof. destruct answer; split; reflexivity. Qed.

(** C9.  When the environment cannot answer the reduced-motion query (no
    [window], or no [matchMedia] on it), [useReducedMotion] completes
    normally with [false] in both variants: it does not throw. *)
Theorem reduced_motion_query_defaults_false :
  forall env : Host.environment,
    cannot_answer env ->
    ThreeIrisBG.useReducedMotion env = Host.Normal (Host.VBool false) /\
    ThreeIris.useReducedMotion env = Host.Normal (Host.VBool false).
Proof.
  intros env [->|[prop [-> Hnull]]].
  - split; reflexivity.
  - unfold ThreeIrisBG.useReducedMotion, ThreeIris.useReducedMotion.
    cbn [Host.get Host.bind].
    destruct (prop "matchMedia"%string) eqn:E; try discriminate Hnull;
      split; reflexivity.
Qed.

Lemma reduced_motion_query_defaults_false_witness :
  cannot_answer (Some (Host.VObject (fun _ => Host.VUndefined))) /\
  ThreeIrisBG.useReducedMotion (Some (Host.VObject (fun _ => Host.VUndefined)))
    = Host.Normal (Host.VBool false) /\
  ThreeIris.useReducedMotion (Some (Host.VObject (fun _ => Host.VUndefined)))
    = Host.Normal (Host.VBool false).
Proof.
  assert (C : cannot_answer (Some (Host.VObject (fun _ => Host.VUndefined)))).
  { right. exists (fun _ => Host.VUndefined). split; reflexivity. }
  split; [exact C|].
  exact (reduced_motion_query_defaults_false C).
Defined.

(** ** The fragment shader (C1, C7) *)

Section Shader.
Import GLSL.
Local Open Scope R_scope.

Lemma mix_lerp (x y a : R) : mix x y a = lerp x y a.
Proof. unfold mix, lerp. ring. Qed.

Lemma mix3_lerp3 (x y : vec3) (a : R) : mix3 x y a = lerp3 x y a.
Proof. unfold mix3, lerp3. now rewrite !mix_lerp. Qed.

Lemma clamp_below (x lo hi : R) : lo <= hi -> x <= lo -> clamp x lo hi = lo.
Proof.
  intros Hlh Hx. unfold clamp.
  rewrite Rmax_right by exact Hx. now apply Rmin_left.
Qed.

Lemma clamp_above (x lo hi : R) : lo <= hi -> hi <= x -> clamp x lo hi = hi.
Proof.
  intros Hlh Hx. unfold clamp.
  rewrite Rmax_left by lra. apply Rmin_right. lra.
Qed.

Lemma clamp_inside (x lo hi : R) : lo <= x <= hi -> clamp x lo hi = x.
Proof.
  intros [H1 H2]. unfold clamp.
  rewrite Rmax_left by exact H1. now apply Rmin_left.
Qed.

(** The glint weight, as the shader and as the specification group it. *)
Lemma glint_weight (g c1 c2 c3 s : R) :
  g * (c1 + c2 * s) * c3 = c3 * g * (c1 + c2 * s).
Proof. ring. Qed.

(** The interpolation parameter of the alpha channel. *)
Lemma alpha_parameter (r : R) :
  (r - 0.99) / (0.96 - 0.99) = (0.99 - r) * (100 / 3).
Proof. lra. Qed.

Lemma alpha_opaque (r : R) : r <= 0.96 -> alpha_of r = 1.
Proof.
  intro Hr. unfold alpha_of, smoothstep. rewrite alpha_parameter.
  rewrite clamp_above by lra. ring.
Qed.

Lemma alpha_transparent (r : R) : 0.99 <= r -> alpha_of r = 0.
Proof.
  intro Hr. unfold alpha_of, smoothstep. rewrite alpha_parameter.
  rewrite clamp_below by lra. ring.
Qed.

Lemma alpha_positive (r : R) : r < 0.99 -> 0 < alpha_of r.
Proof.
  intro Hr. unfold alpha_of, smoothstep. rewrite alpha_parameter.
  set (t := clamp ((0.99 - r) * (100 / 3)) 0 1).
  assert (Ht : 0 < t <= 1).
  { destruct (Rle_dec r 0.96) as [Hle|Hgt].
    - unfold t. rewrite clamp_above by lra. lra.
    - unfold t. rewrite clamp_inside by lra. lra. }
  apply Rmult_lt_0_compat; [apply Rmult_lt_0_compat|]; lra.
Qed.

Lemma alpha_midpoint : alpha_of 0.975 = 0.5.
Proof.
  unfold alpha_of, smoothstep. rewrite alpha_parameter.
  rewrite clamp_inside by lra. lra.
Qed.

(** The alpha channel the shaders write is [alpha_of] of the radius. *)
Lemma main_alpha (atan_origin : R) (u : uniforms) (vUv : vec2) :
  let p := mkvec2 (x2 vUv * 2 - 1) (y2 vUv * 2 - 1) in
  alpha (main_BG atan_origin u vUv) = alpha_of (length p) /\
  alpha (main_Iris atan_origin u vUv) = alpha_of (length p).
Proof. split; reflexivity. Qed.

End Shader.

(** C1.  On every [uv] (in particular on the unit square) and for every
    value of the time and colour uniforms, both variants' fragment shaders
    compute the colour and alpha of the specification's reference
    definition: stripes, fibers, the primary/secondary blend, the glint
    blend with weight [0.08 * smoothstep(0.68, 0.86, r) * (0.7 + 0.3 *
    sin(6a + 0.7t))], the vignette factor and [alpha = smoothstep(0.99,
    0.96, r)], over real arithmetic. *)
Theorem iris_shader_matches_reference :
  forall (atan_origin : R) (u : GLSL.uniforms) (uv : GLSL.vec2),
    GLSL.main_BG atan_origin u uv =
      GLSL.iris_reference atan_origin
        (GLSL.u_primary u) (GLSL.u_secondary u) (GLSL.u_glint u) (GLSL.u_time u) uv /\
    GLSL.main_Iris atan_origin u uv =
      GLSL.iris_reference atan_origin
        (GLSL.u_primary u) (GLSL.u_secondary u) (GLSL.u_glint u) (GLSL.u_time u) uv.
Proof.
  intros atan_origin u uv.
  assert (E : GLSL.main_BG atan_origin u uv =
              GLSL.iris_reference atan_origin
                (GLSL.u_primary u) (GLSL.u_secondary u) (GLSL.u_glint u) (GLSL.u_time u) uv).
  { unfold GLSL.main_BG, GLSL.iris_reference, GLSL.toPolar.
    cbv zeta. cbn [GLSL.x2 GLSL.y2].
    set (r := GLSL.length _).
    set (a := GLSL.atan2 atan_origin _ _).
    rewrite !mix3_lerp3, mix_lerp.
    replace (a * 32 + r * 24 - GLSL.u_time u * 0.6)%R
      with (32 * a + 24 * r - 0.6 * GLSL.u_time u)%R by ring.
    replace (a * 96 - GLSL.u_time u * 0.9)%R
      with (96 * a - 0.9 * GLSL.u_time u)%R by ring.
    replace (a * 6 + GLSL.u_time u * 0.7)%R
      with (6 * a + 0.7 * GLSL.u_time u)%R by ring.
    set (s1 := sin (32 * a + 24 * r - 0.6 * GLSL.u_time u)).
    set (s2 := sin (96 * a - 0.9 * GLSL.u_time u)).
    set (s3 := sin (6 * a + 0.7 * GLSL.u_time u)).
    replace ((s1 * 0.5 + 0.5) * 0.7 + (s2 * 0.5 + 0.5) * 0.3)%R
      with (0.7 * (0.5 + 0.5 * s1) + 0.3 * (0.5 + 0.5 * s2))%R by lra.
    rewrite glint_weight.
    replace 0.0%R with 0%R by lra.
    replace 1.0%R with 1%R by lra.
    reflexivity. }
  split; [exact E|].
  rewrite <- E. reflexivity.
Qed.

(** C7.  The alpha channel both shaders write is [alpha =
    smoothstep(0.99, 0.96, r)] at the radius [r] of the centred coordinate.
    It is [1] at [r = 0.96] and for every [r <= 0.96], is [0] exactly when
    [r >= 0.99], and lies strictly between [0] and [1] at [r = 0.975] (where
    it is [0.5]). *)
Theorem alpha_channel_profile :
  (forall (atan_origin : R) (u : GLSL.uniforms) (vUv : GLSL.vec2),
      let p := GLSL.mkvec2 (GLSL.x2 vUv * 2 - 1) (GLSL.y2 vUv * 2 - 1) in
      GLSL.alpha (GLSL.main_BG atan_origin u vUv) = GLSL.alpha_of (GLSL.length p) /\
      GLSL.alpha (GLSL.main_Iris atan_origin u vUv) = GLSL.alpha_of (GLSL.length p)) /\
  GLSL.alpha_of 0.96 = 1%R /\
  (forall r : R, (r <= 0.96)%R -> GLSL.alpha_of r = 1%R) /\
  (forall r : R, GLSL.alpha_of r = 0%R <-> (0.99 <= r)%R) /\
  (0 < GLSL.alpha_of 0.975 < 1)%R.
Proof.
  split; [exact main_alpha|].
  split; [apply alpha_opaque; lra|].
  split; [exact alpha_opaque|].
  split.
  - intro r. split.
    + intro E. destruct (Rle_dec 0.99 r) as [Hr|Hr]; [exact Hr|].
      pose proof (alpha_positive (r := r)) as P. lra.
    + apply alpha_transparent.
  - rewrite alpha_midpoint. lra.
Qed.

(** ** Pointer-follow smoothing (C5) *)

Section Tilt.
Context {F : Type} `{JSNumber F}.

(** The tilt after [n] frames is the [n]-fold smoothing step. *)
Lemma tilt_x_BG_iter (reduceMotion : bool) (p : Pointer F) (dt : F) (n : nat) :
  forall (rg : option (Euler F)) (t : F) (g : Euler F),
    tilt_x_BG reduceMotion p dt (mkScene rg (mkLens t (Some g))) n =
    Some (Nat.iter n (follow (ptr_y p)) (rot_x g)).
Proof.
  unfold tilt_x_BG, ThreeIrisBG.run.
  induction n as [|n IH]; intros rg t g.
  - reflexivity.
  - cbn [repeat fold_left]. unfold ThreeIrisBG.frame at 2.
    cbn [rings_group lens]. rewrite lens_useFrame_attached, IH.
    cbn [rot_x]. now rewrite Nat.iter_succ_r.
Qed.

Lemma tilt_x_Iris_BG (reduceMotion : bool) (p : Pointer F) (dt : F) (s : Scene F) (n : nat) :
  tilt_x_Iris reduceMotion p dt s n = tilt_x_BG reduceMotion p dt s n.
Proof.
  unfold tilt_x_Iris, tilt_x_BG.
  rewrite <- run_same. do 2 f_equal.
  induction n as [|n IH]; [reflexivity|].
  cbn [repeat map]. now rewrite IH.
Qed.

End Tilt.

Section TiltReal.
Local Open Scope R_scope.

Lemma js_or_zero_R (x : R) : js_or x (lit 0) = x.
Proof.
  unfold js_or. cbn. unfold R_truthy.
  destruct (Req_dec_T x 0) as [->|_]; [|reflexivity].
  unfold R_of_Q. cbn. lra.
Qed.

Lemma follow_R (c x : R) : follow c x = x + (c * 0.12 - x) * 0.075.
Proof.
  unfold follow. rewrite js_or_zero_R. cbn. unfold R_of_Q. cbn. lra.
Qed.

(** Closed form of the smoothing from rest towards [0.12]. *)
Lemma follow_closed_form (n : nat) :
  Nat.iter n (follow 1) 0 = 0.12 * (1 - 0.925 ^ n).
Proof.
  induction n as [|n IH].
  - cbn. lra.
  - rewrite Nat.iter_succ, IH, follow_R. cbn [pow]. lra.
Qed.

Lemma pow_0925_bounds (n : nat) : 0 < 0.925 ^ n /\ 0.925 ^ S n <= 0.925 ^ n.
Proof.
  assert (P : 0 < 0.925 ^ n) by (apply pow_lt; lra).
  split; [exact P|]. cbn [pow]. lra.
Qed.

Lemma follow_rises_R (tilt : nat -> option R) :
  (forall n, tilt n = Some (0.12 * (1 - 0.925 ^ n))) ->
  rises_to Rle 0.12 tilt /\ approaches 0.12 tilt.
Proof.
  intro Htilt. split.
  - intro n. exists (0.12 * (1 - 0.925 ^ n)), (0.12 * (1 - 0.925 ^ S n)).
    rewrite !Htilt.
    destruct (pow_0925_bounds n) as [P1 P2], (pow_0925_bounds (S n)) as [P3 _].
    repeat split; lra.
  - intros eps Heps.
    destruct (pow_lt_1_zero 0.925) with (y := eps) as [N HN].
    + rewrite Rabs_pos_eq; lra.
    + exact Heps.
    + exists N. intros n Hn. exists (0.12 * (1 - 0.925 ^ n)).
      split; [apply Htilt|].
      specialize (HN n Hn). destruct (pow_0925_bounds n) as [P _].
      rewrite Rabs_pos_eq in HN by lra. lra.
Qed.

End TiltReal.

Section TiltFloat.

Lemma rises_within_sound (f : float -> float) (bound : float) (fuel : nat) :
  forall x : float,
    rises_within f bound fuel x = true ->
    forall k : nat, (k < fuel)%nat ->
      float_le (Nat.iter k f x) (Nat.iter (S k) f x) /\
      float_le (Nat.iter (S k) f x) bound.
Proof.
  induction fuel as [|fuel IH]; intros x Hx k Hk; [lia|].
  cbn [rises_within] in Hx.
  apply andb_prop in Hx as [Hx Hrest]. apply andb_prop in Hx as [Hup Hbd].
  destruct k as [|k].
  - cbn. split; assumption.
  - rewrite !(Nat.iter_succ_r _ _ f x). apply IH; [exact Hrest|lia].
Qed.

Lemma iter_stationary (f : float -> float) (x : float) (n : nat) :
  f x = x -> Nat.iter n f x = x.
Proof.
  intro Hfix. induction n as [|n IH]; [reflexivity|].
  now rewrite Nat.iter_succ, IH.
Qed.

Lemma iter_after (f : float -> float) (x : float) (m n : nat) :
  f (Nat.iter m f x) = Nat.iter m f x -> (m <= n)%nat ->
  Nat.iter n f x = Nat.iter m f x.
Proof.
  intros Hfix Hmn. replace n with ((n - m) + m)%nat by lia.
  rewrite Nat.iter_add. now apply iter_stationary.
Qed.

(** The binary64 smoothing from rest towards [0.12]: the first [settle]
    steps are checked by evaluation, and from then on the value is fixed. *)
Lemma follow_settles :
  follow (F:=float) (lit 1) (Nat.iter settle (follow (lit 1)) (lit 0)) =
  Nat.iter settle (follow (lit 1)) (lit 0).
Proof. vm_compute. reflexivity. Qed.

Lemma follow_rises_early :
  rises_within (follow (lit 1)) (lit 0.12) (S settle) (lit 0) = true.
Proof. vm_compute. reflexivity. Qed.

Lemma follow_settled_float (tilt : nat -> option float) :
  (forall n, tilt n = Some (Nat.iter n (follow (lit 1)) (lit 0))) ->
  forall n, (settle <= n)%nat -> within (decimal_place 15) (tilt n) 0.12.
Proof.
  intros Htilt n Hn.
  rewrite Htilt, (@iter_after _ _ settle n follow_settles Hn).
  split; vm_compute; reflexivity || discriminate.
Qed.

Lemma follow_rises_float (tilt : nat -> option float) :
  (forall n, tilt n = Some (Nat.iter n (follow (lit 1)) (lit 0))) ->
  rises_to float_le (lit 0.12) tilt.
Proof.
  intros Htilt n.
  exists (Nat.iter n (follow (lit 1)) (lit 0)), (Nat.iter (S n) (follow (lit 1)) (lit 0)).
  rewrite !Htilt. split; [reflexivity|]. split; [reflexivity|].
  destruct (Nat.lt_ge_cases n (S settle)) as [Hlt|Hge].
  - apply rises_within_sound with (fuel := S settle); [exact follow_rises_early|exact Hlt].
  - assert (Hn : (settle <= n)%nat) by lia.
    assert (HSn : (settle <= S n)%nat) by lia.
    rewrite (@iter_after _ _ settle n follow_settles Hn).
    rewrite (@iter_after _ _ settle (S n) follow_settles HSn).
    split; vm_compute; reflexivity.
Qed.

End TiltFloat.

(** C5.  With the pointer sample fixed at [y = 1] and the lens tilt about x
    initially [0], repeated invocation of the frame driver (either variant,
    any motion preference, any constant [dt]) makes the tilt follow
    [x += (y * 0.12 - x) * 0.075]: it never decreases from one frame to the
    next and never exceeds [0.12].  In real arithmetic the tilt after [n]
    frames is [0.12 * (1 - 0.925^n)], which comes arbitrarily close to
    [0.12]; in binary64 arithmetic the same monotonicity and bound hold at
    every frame, and from frame 445 on the tilt stays within [1e-15] of
    [0.12]. *)
Theorem pointer_follow_rises_to_target :
  (forall (reduceMotion : bool) (x dt t ry rz : R) (rg : option (Euler R)),
      let s := mkScene rg (mkLens t (Some (mkEuler 0%R ry rz))) in
      let p := mkPointer x 1%R in
      rises_to Rle 0.12%R (tilt_x_BG reduceMotion p dt s) /\
      rises_to Rle 0.12%R (tilt_x_Iris reduceMotion p dt s) /\
      approaches 0.12%R (tilt_x_BG reduceMotion p dt s) /\
      approaches 0.12%R (tilt_x_Iris reduceMotion p dt s) /\
      forall n, tilt_x_BG reduceMotion p dt s n = Some (0.12 * (1 - 0.925 ^ n))%R) /\
  (forall (reduceMotion : bool) (x dt t ry rz : float) (rg : option (Euler float)),
      let s := mkScene rg (mkLens t (Some (mkEuler (lit 0) ry rz))) in
      let p := mkPointer x (lit 1) in
      rises_to float_le (lit 0.12) (tilt_x_BG reduceMotion p dt s) /\
      rises_to float_le (lit 0.12) (tilt_x_Iris reduceMotion p dt s) /\
      (forall n, (settle <= n)%nat ->
                 within (decimal_place 15) (tilt_x_BG reduceMotion p dt s n) 0.12 /\
                 within (decimal_place 15) (tilt_x_Iris reduceMotion p dt s n) 0.12)).
Proof.
  split.
  - intros rm x dt t ry rz rg s p.
    assert (C : forall n, tilt_x_BG rm p dt s n = Some (0.12 * (1 - 0.925 ^ n))%R).
    { intro n. unfold s, p. rewrite tilt_x_BG_iter. cbn [ptr_y rot_x].
      now rewrite follow_closed_form. }
    assert (C' : forall n, tilt_x_Iris rm p dt s n = Some (0.12 * (1 - 0.925 ^ n))%R).
    { intro n. now rewrite tilt_x_Iris_BG. }
    destruct (follow_rises_R _ C) as [R1 A1], (follow_rises_R _ C') as [R2 A2].
    repeat split; assumption.
  - intros rm x dt t ry rz rg s p.
    assert (C : forall n, tilt_x_BG rm p dt s n =
                          Some (Nat.iter n (follow (lit 1)) (lit 0))).
    { intro n. unfold s, p. now rewrite tilt_x_BG_iter. }
    assert (C' : forall n, tilt_x_Iris rm p dt s n =
                           Some (Nat.iter n (follow (lit 1)) (lit 0))).
    { intro n. now rewrite tilt_x_Iris_BG. }
    split; [exact (follow_rises_float _ C)|].
    split; [exact (follow_rises_float _ C')|].
    intros n Hn. split.
    + exact (follow_settled_float _ C Hn).
    + exact (follow_settled_float _ C' Hn).
Qed.

(** ** The end-to-end scenario (C6) *)

Lemma within_refute (tol : Q) (v : float) (c : Q) :
  Qle_bool (Qabs (float_val v - c)) tol = false ->
  ~ within tol (Some v) c.
Proof.
  intros Hle [_ W]. apply Qle_bool_iff in W. rewrite W in Hle. discriminate.
Qed.

(** C6, as stated, fails: after the three frames the lens tilt about x is
    [-0.025025625] (up to binary64 rounding), which is not [-0.02505] to the
    five decimals quoted; the quoted factor [0.2087] is [0.208546875]. *)
Lemma end_to_end_digits_off :
  within (decimal_place 15) (lens_rot (@rot_x float) scenario_BG) (-0.025025625) /\
  ~ within (decimal_place 5) (lens_rot (@rot_x float) scenario_BG) (-0.02505) /\
  ~ end_to_end_as_stated scenario_BG /\
  ~ end_to_end_as_stated scenario_Iris.
Proof.
  split; [split; vm_compute; reflexivity || discriminate|].
  split; [apply within_refute; vm_compute; reflexivity|].
  split; intros (_ & _ & W); revert W;
    apply within_refute; vm_compute; reflexivity.
Qed.

Section ScenarioReal.
Local Open Scope R_scope.

Lemma scenario_BG_real :
  scenario_BG (F:=R) =
  mkScene (Some (mkEuler 0 0 0.00144))
    (mkLens 0.048 (Some (mkEuler (-0.025025625) 0.025025625 0.0048))).
Proof.
  unfold scenario_BG, scenario_inputs, ThreeIrisBG.run, scene0, rotation0.
  cbn [repeat fold_left].
  unfold ThreeIrisBG.frame. cbn [rings_group lens].
  rewrite !lens_useFrame_attached.
  cbn [ThreeIrisBG.NeuralRings_useFrame negb rot_x rot_y rot_z ptr_x ptr_y].
  rewrite !follow_R.
  cbn [jadd jsub jmul jdiv lit R_number]. unfold R_of_Q. cbn [Qnum Qden].
  f_equal; [do 2 f_equal; lra|].
  f_equal; [lra|]. do 2 f_equal; lra.
Qed.

(** The first frame of the scenario, in real arithmetic. *)
Example first_frame_real :
  ThreeIrisBG.frame (F:=R) false scene0 (mkPointer 1 (-1), 0.016)%R =
  mkScene (Some (mkEuler 0 0 0.00048))
          (mkLens 0.016 (Some (mkEuler (-0.009) 0.009 0.0016)))%R.
Proof.
  unfold ThreeIrisBG.frame, scene0, rotation0. cbn [rings_group lens].
  rewrite lens_useFrame_attached.
  cbn [ThreeIrisBG.NeuralRings_useFrame negb rot_x rot_y rot_z ptr_x ptr_y].
  rewrite !follow_R.
  cbn [jadd jsub jmul jdiv lit R_number]. unfold R_of_Q. cbn [Qnum Qden].
  f_equal; [do 2 f_equal; lra|].
  f_equal; [lra|]. do 2 f_equal; lra.
Qed.

Lemma moved_fraction : 1 - (1 - 0.075) ^ 3 = 0.208546875.
Proof. cbn [pow]. lra. Qed.

End ScenarioReal.

(** C6, amended.  From the initial state (shader time and all rotations
    [0]), with motion enabled, the pointer fixed at [(1, -1)] and three
    frames of [dt = 0.016], either variant ends with shader time [0.048],
    lens rotation about z [0.0048] and lens tilt about x moved from [0]
    towards [-0.12] by the factor [1 - (1 - 0.075)^3 = 0.208546875], that is
    [-0.025025625]: exactly so in real arithmetic, and within [1e-15] in
    binary64 arithmetic. *)
Theorem end_to_end_scenario :
  end_to_end_outcome scenario_BG /\
  end_to_end_outcome scenario_Iris /\
  scenario_Iris (F:=R) = scenario_BG /\
  u_time (lens (scenario_BG (F:=R))) = 0.048%R /\
  lens_rot (@rot_z R) scenario_BG = Some 0.0048%R /\
  lens_rot (@rot_x R) scenario_BG = Some (-0.12 * (1 - (1 - 0.075) ^ 3))%R /\
  (-0.12 * (1 - (1 - 0.075) ^ 3) = -0.025025625)%R.
Proof.
  assert (D : forall s, s = scenario_BG (F:=float) -> end_to_end_outcome s).
  { intros s ->. repeat split; vm_compute; reflexivity || discriminate. }
  split; [now apply D|].
  split; [apply D; unfold scenario_Iris; apply run_same|].
  split; [unfold scenario_Iris; apply run_same|].
  rewrite scenario_BG_real, moved_fraction. unfold lens_rot.
  cbn [lens u_time lens_group option_map rot_z rot_x].
  repeat split; try reflexivity; try (f_equal; lra); lra.
Qed.

(** ** Ring geometry (C2, C10) *)

Section RingStructure.
Context {F : Type} {N : JSNumber F} {M : JSMath F}.

Lemma nth_error_map_seq (A : Type) (f : nat -> A) (n j start : nat) :
  (j < n)%nat -> nth_error (map f (seq start n)) j = Some (f (start + j)%nat).
Proof.
  revert j start. induction n as [|n IH]; intros j start Hj; [lia|].
  destruct j as [|j]; cbn [seq map nth_error].
  - now rewrite Nat.add_0_r.
  - rewrite IH by lia. f_equal. f_equal. lia.
Qed.

Lemma rings_are (P : RingSpec F -> Prop) :
  (forall i : nat, P (ring i)) -> Forall P rings.
Proof.
  intro HP. apply Forall_forall. intros rg Hin.
  apply in_map_iff in Hin as [i [<- _]]. apply HP.
Qed.

Lemma ring_points_are (i : nat) (P : Vector3 F -> Prop) :
  (forall j : nat, (j <= steps)%nat -> P (ring_point (radius (ring i)) j)) ->
  Forall P (points (ring i)).
Proof.
  intro HP. apply Forall_forall. intros p Hin.
  cbn [ring points] in Hin.
  apply in_map_iff in Hin as [j [<- Hj]]. apply HP.
  apply in_seq in Hj. lia.
Qed.

Lemma ring_vertex (i j : nat) :
  (j <= steps)%nat ->
  nth_error (points (ring i)) j = Some (ring_point (radius (ring i)) j).
Proof.
  intro Hj. cbn [ring points radius].
  rewrite nth_error_map_seq by lia. reflexivity.
Qed.

Lemma ring_structure :
  List.length rings = 3%nat /\
  Forall (fun rg => List.length (points rg) = 181%nat /\
                    Forall (fun p => vz p = lit (-0.2)) (points rg)) rings.
Proof.
  split; [reflexivity|].
  apply rings_are. intro i. split.
  - cbn [ring points]. now rewrite length_map, length_seq.
  - apply ring_points_are. reflexivity.
Qed.

End RingStructure.

Section RingsReal.
Local Open Scope R_scope.

Lemma ring_radius_R (i : nat) : radius (ring (F:=R) i) = 0.9 + INR i * 0.22.
Proof.
  cbn [ring radius]. unfold of_nat.
  cbn [jadd jmul lit R_number]. unfold R_of_Q.
  cbn [Qnum Qden inject_Z]. rewrite <- INR_IZR_INZ. lra.
Qed.

Lemma ring_point_R (r : R) (j : nat) :
  ring_point r j =
  mkVector3 (cos (INR j / 180 * PI * 2) * r) (sin (INR j / 180 * PI * 2) * r) (-0.2).
Proof.
  unfold ring_point, steps, of_nat.
  cbn [jadd jsub jmul jdiv lit R_number Math_PI Math_cos Math_sin R_math].
  unfold R_of_Q. cbn [Qnum Qden inject_Z].
  rewrite <- INR_IZR_INZ.
  replace (IZR (Z.of_nat 180) / IZR 1) with 180 by (cbn; lra).
  replace (INR j / IZR 1 / 180 * PI * (IZR 2 / IZR 1)) with (INR j / 180 * PI * 2) by lra.
  reflexivity.
Qed.

Lemma ring_start_R (r : R) : ring_point r 0 = mkVector3 r 0 (-0.2).
Proof.
  rewrite ring_point_R. cbn [INR].
  replace (0 / 180 * PI * 2) with 0 by lra.
  rewrite cos_0, sin_0. f_equal; lra.
Qed.

Lemma ring_end_R (r : R) : ring_point r 180 = mkVector3 r 0 (-0.2).
Proof.
  rewrite ring_point_R.
  replace (INR 180 / 180 * PI * 2) with (2 * PI).
  - rewrite cos_2PI, sin_2PI. f_equal; lra.
  - replace (INR 180) with 180 by (rewrite INR_IZR_INZ; reflexivity). lra.
Qed.

Lemma ring_point_on_circle (r : R) (j : nat) :
  vx (ring_point r j) * vx (ring_point r j) +
  vy (ring_point r j) * vy (ring_point r j) = r * r.
Proof.
  rewrite ring_point_R. cbn [vx vy].
  set (t := INR j / 180 * PI * 2).
  pose proof (sin2_cos2 t) as E. unfold Rsqr in E.
  replace (cos t * r * (cos t * r) + sin t * r * (sin t * r))
    with ((sin t * sin t + cos t * cos t) * (r * r)) by ring.
  rewrite E. ring.
Qed.

End RingsReal.

Section RingsFloat.
Variables cos64 sin64 : float -> float.

(** The marker angle and the vertex angle are the same binary64 quotient. *)
Lemma marker_angle (k : nat) :
  (k < 12)%nat ->
  jdiv (of_nat k) (lit 12) = jdiv (of_nat (F:=float) (15 * k)) (of_nat steps).
Proof.
  intro Hk.
  do 12 (destruct k as [|k]; [vm_compute; reflexivity|]).
  lia.
Qed.

(** The first vertex is at angle [0] and the last at [Math.PI * 2]: the
    quotient [180 / 180] and the product by [Math.PI] are exact. *)
Lemma ring_ends_float (r : float) :
  ring_point (M := float_math cos64 sin64) r 0 =
    mkVector3 (jmul (cos64 (lit 0)) r) (jmul (sin64 (lit 0)) r) (lit (-0.2)) /\
  ring_point (M := float_math cos64 sin64) r 180 =
    mkVector3 (jmul (cos64 (jmul (Math_PI (JSMath := float_math cos64 sin64)) (lit 2))) r)
              (jmul (sin64 (jmul (Math_PI (JSMath := float_math cos64 sin64)) (lit 2))) r)
              (lit (-0.2)).
Proof.
  unfold ring_point.
  assert (E0 : jmul (jmul (jdiv (of_nat (F:=float) 0) (of_nat steps))
                          (Math_PI (JSMath := float_math cos64 sin64))) (lit 2) = lit 0)
    by (vm_compute; reflexivity).
  assert (E1 : jmul (jmul (jdiv (of_nat (F:=float) 180) (of_nat steps))
                          (Math_PI (JSMath := float_math cos64 sin64))) (lit 2) =
               jmul (Math_PI (JSMath := float_math cos64 sin64)) (lit 2))
    by (vm_compute; reflexivity).
  cbv zeta. rewrite E0, E1. split; reflexivity.
Qed.

Lemma marker_is_vertex (rg : RingSpec float) (k : nat) :
  (k < 12)%nat ->
  ring_point (M := float_math cos64 sin64) (radius rg) (15 * k) =
  marker (M := float_math cos64 sin64) rg k.
Proof.
  intro Hk. unfold ring_point, marker.
  now rewrite <- (marker_angle Hk).
Qed.

End RingsFloat.

(** C2.  The ring geometry builder, run for [ringCount = 3], returns three
    rings, each with 181 points at depth [-0.2].  In real arithmetic the
    radii are exactly [0.9], [1.12] and [1.34], every point lies on the
    circle of its ring's radius, and point 180 equals point 0 (the loop is
    closed).  In binary64 arithmetic the radii are within [1e-6] of [0.9],
    [1.12] and [1.34], point 0 is at angle [0] and point 180 at angle
    [Math.PI * 2] of the same circle, so that they agree as closely as the
    engine's [Math.cos] and [Math.sin] are accurate there.  The builder is a
    function of the ring count: equal counts give equal rings. *)
Theorem ring_geometry :
  (forall (F : Type) (N : JSNumber F) (M : JSMath F),
      rings = build_rings 3 /\
      List.length (rings (F:=F)) = 3%nat /\
      Forall (fun rg => List.length (points rg) = 181%nat /\
                        Forall (fun p => vz p = lit (-0.2)) (points rg))
             (rings (F:=F)) /\
      (forall n m : nat, n = m -> build_rings (F:=F) n = build_rings m)) /\
  map (@radius R) rings = [0.9; 1.12; 1.34]%R /\
  Forall (fun rg =>
            nth_error (points rg) 0 = Some (mkVector3 (radius rg) 0 (-0.2))%R /\
            nth_error (points rg) 180 = nth_error (points rg) 0 /\
            Forall (fun p => (vx p * vx p + vy p * vy p = radius rg * radius rg)%R /\
                             vz p = (-0.2)%R)
                   (points rg))
         (rings (F:=R)) /\
  (forall cos64 sin64 : float -> float,
      let two_pi := jmul (Math_PI (JSMath := float_math cos64 sin64)) (lit 2) in
      Forall2 (fun rg c => within (decimal_place 6) (Some (radius rg)) c)
              (rings (M := float_math cos64 sin64)) [0.9; 1.12; 1.34]%Q /\
      Forall (fun rg =>
                nth_error (points rg) 0 =
                  Some (mkVector3 (jmul (cos64 (lit 0)) (radius rg))
                                  (jmul (sin64 (lit 0)) (radius rg)) (lit (-0.2))) /\
                nth_error (points rg) 180 =
                  Some (mkVector3 (jmul (cos64 two_pi) (radius rg))
                                  (jmul (sin64 two_pi) (radius rg)) (lit (-0.2))))
             (rings (M := float_math cos64 sin64))).
Proof.
  split.
  { intros F N M. destruct (ring_structure (F:=F)) as [L P].
    repeat split; try assumption. intros n m ->. reflexivity. }
  split.
  { change (rings (F:=R)) with [ring (F:=R) 0; ring 1; ring 2].
    cbn [map]. rewrite !ring_radius_R. cbn [INR]. repeat f_equal; lra. }
  split.
  { apply rings_are. intro i.
    rewrite !ring_vertex by (unfold steps; lia).
    rewrite ring_start_R, ring_end_R. repeat split.
    apply ring_points_are. intros j _. split.
    - apply ring_point_on_circle.
    - rewrite ring_point_R. reflexivity. }
  intros cos64 sin64 two_pi.
  set (M := float_math cos64 sin64). split.
  - change (rings (M := M)) with [ring (M := M) 0; ring (M := M) 1; ring (M := M) 2].
    repeat constructor; vm_compute; reflexivity || discriminate.
  - apply rings_are. intro i.
    rewrite !ring_vertex by (unfold steps; lia).
    destruct (ring_ends_float cos64 sin64 (radius (ring (M := M) i))) as [E0 E1].
    fold M in E0, E1. rewrite E0, E1. split; reflexivity.
Qed.

(** C10.  In binary64 arithmetic, whatever functions the engine's
    [Math.cos] and [Math.sin] are, for every ring and every marker index
    [k] in [0..11] the position of marker [k] is the ring polyline's vertex
    at index [15 * k], coordinate for coordinate (the same binary64 values):
    the marker angle [(k / 12) * PI * 2] and the vertex angle [(15k / 180) *
    PI * 2] are computed from the same quotient, and both are scaled by the
    same radius. *)
Theorem markers_on_polyline :
  forall cos64 sin64 : float -> float,
    Forall (fun rg =>
              Forall (fun k =>
                        nth_error (markers (M := float_math cos64 sin64) rg) k =
                          nth_error (points rg) (15 * k) /\
                        nth_error (points rg) (15 * k) =
                          Some (marker (M := float_math cos64 sin64) rg k))
                     (seq 0 12))
           (rings (M := float_math cos64 sin64)).
Proof.
  intros cos64 sin64. set (M := float_math cos64 sin64).
  apply rings_are. intro i.
  apply Forall_forall. intros k Hk. apply in_seq in Hk.
  assert (V : nth_error (points (ring (M := M) i)) (15 * k) =
              Some (marker (M := M) (ring (M := M) i) k)).
  { rewrite ring_vertex by (unfold steps; lia).
    f_equal. apply marker_is_vertex. lia. }
  split; [|exact V].
  rewrite V. unfold markers. rewrite nth_error_map_seq by lia. reflexivity.
Qed.

(** * Further properties of the code *)

(** ** The pointer sampler *)

Section SamplerReal.
Local Open Scope R_scope.

Lemma onMove_R (w : Viewport R) (e : MouseEvent R) (ref : Pointer R) :
  ViewportPointer.onMove w e ref =
  mkPointer (clientX e / innerWidth w * 2 - 1) (clientY e / innerHeight w * 2 - 1).
Proof.
  unfold ViewportPointer.onMove.
  cbn [jadd jsub jmul jdiv lit R_number]. unfold R_of_Q. cbn [Qnum Qden].
  f_equal; lra.
Qed.

(** The normalisation of one coordinate. *)
Lemma normalise_bounds (c w : R) :
  0 < w -> (-1 <= c / w * 2 - 1 <-> 0 <= c) /\ (c / w * 2 - 1 <= 1 <-> c <= w).
Proof.
  intro Hw. assert (Hi : 0 < / w) by now apply Rinv_0_lt_compat.
  unfold Rdiv. split; split; intro Hc.
  - apply Rmult_le_reg_r with (/ w); [exact Hi|]. lra.
  - assert (0 <= c * / w) by (apply Rmult_le_pos; lra). lra.
  - apply Rmult_le_reg_r with (/ w); [exact Hi|].
    rewrite Rinv_r by lra. lra.
  - assert (c * / w <= w * / w) by (apply Rmult_le_compat_r; lra).
    rewrite Rinv_r in * by lra. lra.
Qed.

Lemma onMove_in_square (w : Viewport R) (e : MouseEvent R) (ref : Pointer R) :
  in_viewport w e -> in_square (ViewportPointer.onMove w e ref).
Proof.
  intros (Hw & Hh & [Hx0 Hx1] & [Hy0 Hy1]).
  rewrite onMove_R. unfold in_square. cbn [ptr_x ptr_y].
  destruct (normalise_bounds (clientX e) Hw) as [Lx Ux].
  destruct (normalise_bounds (clientY e) Hh) as [Ly Uy].
  repeat split; (apply Lx || apply Ux || apply Ly || apply Uy); assumption.
Qed.

(** X1.  In real arithmetic and for a viewport of positive width and
    height, the mouse handler maps the top-left corner to [(-1, -1)], the
    bottom-right corner to [(1, 1)] and the centre to [(0, 0)]; the sample
    is at most [1] exactly when the event coordinate is at most the
    viewport size, and at least [-1] exactly when it is not negative: the
    handler does no clamping.  The previous sample is ignored. *)
Theorem pointer_normalisation :
  forall (W Hgt cx cy : R) (ref : Pointer R),
    0 < W -> 0 < Hgt ->
    let w := mkViewport W Hgt in
    let p := ViewportPointer.onMove w (mkMouseEvent cx cy) ref in
    ViewportPointer.onMove w (mkMouseEvent 0 0) ref = mkPointer (-1) (-1) /\
    ViewportPointer.onMove w (mkMouseEvent W Hgt) ref = mkPointer 1 1 /\
    ViewportPointer.onMove w (mkMouseEvent (W / 2) (Hgt / 2)) ref = mkPointer 0 0 /\
    (-1 <= ptr_x p <-> 0 <= cx) /\ (ptr_x p <= 1 <-> cx <= W) /\
    (-1 <= ptr_y p <-> 0 <= cy) /\ (ptr_y p <= 1 <-> cy <= Hgt).
Proof.
  intros W Hgt cx cy ref HW HH w p. unfold p, w.
  rewrite !onMove_R. cbn [clientX clientY innerWidth innerHeight ptr_x ptr_y].
  destruct (normalise_bounds cx HW) as [Lx Ux].
  destruct (normalise_bounds cy HH) as [Ly Uy].
  repeat split; try (apply Lx || apply Ux || apply Ly || apply Uy); try assumption.
  - f_equal; lra.
  - f_equal; field; lra.
  - f_equal; field; lra.
Qed.

Lemma pointer_normalisation_witness :
  0 < 800 /\ 0 < 600 /\
  ViewportPointer.onMove (mkViewport 800 600) (mkMouseEvent 0 0) ViewportPointer.initial
    = mkPointer (-1) (-1).
Proof.
  assert (HW : 0 < 800) by lra. assert (HH : 0 < 600) by lra.
  split; [exact HW|]. split; [exact HH|].
  exact (proj1 (@pointer_normalisation 800 600 200 300 ViewportPointer.initial HW HH)).
Defined.

End SamplerReal.

(** ** The event loop of the mounted component *)

Section EventLoopFacts.
Context {F : Type} `{JSNumber F}.

Lemma exec_app (reduceMotion : bool) (evs evs' : list (Event F)) (c : Component F) :
  exec reduceMotion (evs ++ evs') c = exec reduceMotion evs' (exec reduceMotion evs c).
Proof. unfold exec. apply fold_left_app. Qed.

(** Frames read the pointer sample and never write it. *)
Lemma frames_keep_pointer (reduceMotion : bool) (dts : list F) (c : Component F) :
  pointerRef (exec reduceMotion (map RenderFrame dts) c) = pointerRef c.
Proof.
  unfold exec. revert c.
  induction dts as [|dt dts IH]; intro c; cbn [map fold_left]; [reflexivity|].
  now rewrite IH.
Qed.

(** Mouse moves never touch the scene. *)
Lemma move_keeps_scene (reduceMotion : bool) (w : Viewport F) (e : MouseEvent F)
  (c : Component F) :
  scene (handle reduceMotion c (MouseMove w e)) = scene c.
Proof. reflexivity. Qed.

End EventLoopFacts.

(** X2.  The pointer sample is the latest one: after any events, a mouse
    move and then any number of frames, the sample the next frame will read
    is the normalisation of that mouse move alone, whatever came before,
    and the frames in between are driven by it. *)
Theorem pointer_latest_sample_wins :
  forall (F : Type) (N : JSNumber F) (reduceMotion : bool)
         (before : list (Event F)) (w : Viewport F) (e : MouseEvent F)
         (dts : list F) (c : Component F),
    let sample := ViewportPointer.onMove w e ViewportPointer.initial in
    let c1 := exec reduceMotion before c in
    let c2 := exec reduceMotion (before ++ MouseMove w e :: map RenderFrame dts) c in
    pointerRef c2 = sample /\
    scene c2 = ThreeIrisBG.run reduceMotion (map (fun dt => (sample, dt)) dts) (scene c1).
Proof.
  intros F N rm before w e dts c sample c1 c2. unfold c2.
  rewrite exec_app. fold c1.
  change (MouseMove w e :: map RenderFrame dts)
    with ([MouseMove w e] ++ map RenderFrame dts).
  rewrite exec_app.
  set (c' := exec rm [MouseMove w e] c1).
  assert (P : pointerRef c' = sample) by reflexivity.
  assert (S : scene c' = scene c1) by reflexivity.
  split; [now rewrite frames_keep_pointer|].
  rewrite <- S. clearbody c'. clear S. revert c' P.
  unfold exec, ThreeIrisBG.run.
  induction dts as [|dt dts IH]; intros c' P; cbn [map fold_left]; [reflexivity|].
  rewrite IH by exact P. cbn [handle scene]. now rewrite P.
Qed.

(** ** The lens tilt *)

Section TiltStep.
Context {F : Type} `{JSNumber F}.

(** What a frame does to the tilt, whatever the flag and [dt]. *)
Lemma frame_tilt (reduceMotion : bool) (s : Scene F) (p : Pointer F) (dt : F) :
  tilt_of (ThreeIrisBG.frame reduceMotion s (p, dt)) =
  option_map (fun xy => (follow (ptr_y p) (fst xy), follow (ptr_x p) (snd xy)))
             (tilt_of s).
Proof.
  destruct s as [rg [t [g|]]]; unfold tilt_of, ThreeIrisBG.frame; cbn [lens rings_group].
  - rewrite lens_useFrame_attached. reflexivity.
  - rewrite lens_useFrame_detached. reflexivity.
Qed.

Lemma run_tilt_pointers (rm rm' : bool) (inputs inputs' : list (Pointer F * F)) :
  map fst inputs = map fst inputs' ->
  forall s s' : Scene F,
    tilt_of s = tilt_of s' ->
    tilt_of (ThreeIrisBG.run rm inputs s) = tilt_of (ThreeIrisBG.run rm' inputs' s').
Proof.
  unfold ThreeIrisBG.run. revert inputs'.
  induction inputs as [|[p dt] inputs IH]; intros [|[p' dt'] inputs'] E s s' T;
    try discriminate E; cbn [fold_left]; [exact T|].
  cbn [map fst] in E. injection E as -> E.
  apply IH; [exact E|]. now rewrite !frame_tilt, T.
Qed.

End TiltStep.

(** X3.  The pointer-follow smoothing is per frame, not per second: the
    lens tilt about x and y after a run of frames depends only on the tilt
    before and on the sequence of pointer samples, not on the elapsed times
    [dt] and not on the reduced-motion flag; in both variants. *)
Theorem tilt_ignores_dt_and_flag :
  forall (F : Type) (N : JSNumber F) (rm rm' : bool)
         (inputs inputs' : list (Pointer F * F)) (s s' : Scene F),
    map fst inputs = map fst inputs' ->
    tilt_of s = tilt_of s' ->
    tilt_of (ThreeIrisBG.run rm inputs s) = tilt_of (ThreeIrisBG.run rm' inputs' s') /\
    tilt_of (ThreeIris.run rm (map with_pointer inputs) s) =
      tilt_of (ThreeIris.run rm' (map with_pointer inputs') s').
Proof.
  intros F N rm rm' inputs inputs' s s' E T.
  rewrite !run_same. split; now apply run_tilt_pointers.
Qed.

Lemma tilt_ignores_dt_and_flag_witness :
  tilt_of (ThreeIrisBG.run (F:=float) false
             [(mkPointer (lit 1) (lit (-1)), lit 0.016)] scene0) =
  tilt_of (ThreeIrisBG.run true
             [(mkPointer (lit 1) (lit (-1)), lit 0.5)] scene0).
Proof.
  exact (proj1 (@tilt_ignores_dt_and_flag float _ false true
                  [(mkPointer (lit 1) (lit (-1)), lit 0.016)]
                  [(mkPointer (lit 1) (lit (-1)), lit 0.5)]
                  scene0 scene0 eq_refl eq_refl)).
Defined.

Section TiltBounds.
Local Open Scope R_scope.

(** One smoothing step is a convex combination of the angle and the
    target. *)
Lemma follow_convex (c x : R) : follow c x = 0.925 * x + 0.075 * (0.12 * c).
Proof. rewrite follow_R. lra. Qed.

Lemma follow_error (c x : R) : follow c x - 0.12 * c = 0.925 * (x - 0.12 * c).
Proof. rewrite follow_R. lra. Qed.

Lemma follow_iter (c x : R) (n : nat) :
  Nat.iter n (follow c) x = 0.12 * c + (x - 0.12 * c) * 0.925 ^ n.
Proof.
  induction n as [|n IH].
  - cbn. lra.
  - rewrite Nat.iter_succ, IH, follow_R. cbn [pow]. lra.
Qed.

Lemma follow_in_range (c x : R) :
  -1 <= c <= 1 -> - (0.12) <= x <= 0.12 -> - (0.12) <= follow c x <= 0.12.
Proof. intros Hc Hx. rewrite follow_convex. lra. Qed.

Lemma frame_keeps_tilt_within (rm : bool) (s : Scene R) (p : Pointer R) (dt : R) :
  in_square p -> tilt_within 0.12 s ->
  tilt_within 0.12 (ThreeIrisBG.frame rm s (p, dt)).
Proof.
  intros [Hx Hy] Hs. unfold tilt_within in *. rewrite frame_tilt.
  destruct (tilt_of s) as [[x y]|]; cbn [option_map fst snd]; [|exact I].
  destruct Hs as [Hsx Hsy].
  split; apply follow_in_range; assumption.
Qed.

Lemma run_keeps_tilt_within (rm : bool) (inputs : list (Pointer R * R)) :
  Forall (fun i => in_square (fst i)) inputs ->
  forall s : Scene R, tilt_within 0.12 s ->
    tilt_within 0.12 (ThreeIrisBG.run rm inputs s).
Proof.
  unfold ThreeIrisBG.run.
  induction 1 as [|[p dt] inputs Hp _ IH]; intros s Hs; cbn [fold_left]; [exact Hs|].
  apply IH. now apply frame_keeps_tilt_within.
Qed.

(** X4.  In real arithmetic, each frame brings the lens tilt closer to its
    pointer target by the factor [0.925] on both axes (tilt about x towards
    [0.12 * pointer.y], tilt about y towards [0.12 * pointer.x]), from any
    tilt and for any pointer sample, flag and [dt]; after [n] frames with
    the pointer held fixed the remaining error is [0.925 ^ n] times the
    initial one, so the tilt never overshoots its target. *)
Theorem tilt_error_contracts :
  forall (rm : bool) (p : Pointer R) (dt t : R) (rg : option (Euler R))
         (g : Euler R) (n : nat),
    let s := mkScene rg (mkLens t (Some g)) in
    let tx := 0.12 * ptr_y p in
    let ty := 0.12 * ptr_x p in
    tilt_of (ThreeIrisBG.frame rm s (p, dt)) =
      Some (tx + 0.925 * (rot_x g - tx), ty + 0.925 * (rot_y g - ty)) /\
    tilt_of (ThreeIrisBG.run rm (repeat (p, dt) n) s) =
      Some (tx + (rot_x g - tx) * 0.925 ^ n, ty + (rot_y g - ty) * 0.925 ^ n) /\
    tilt_of (ThreeIris.run rm (repeat (mkRootState p, dt) n) s) =
      tilt_of (ThreeIrisBG.run rm (repeat (p, dt) n) s).
Proof.
  intros rm p dt t rg g n s tx ty.
  assert (R1 : forall m (s0 : Scene R),
             tilt_of (ThreeIrisBG.run rm (repeat (p, dt) m) s0) =
             option_map (fun xy => (Nat.iter m (follow (ptr_y p)) (fst xy),
                                    Nat.iter m (follow (ptr_x p)) (snd xy)))
                        (tilt_of s0)).
  { unfold ThreeIrisBG.run. induction m as [|m IH]; intro s0; cbn [repeat fold_left].
    - destruct (tilt_of s0) as [[x y]|]; reflexivity.
    - rewrite IH, frame_tilt.
      destruct (tilt_of s0) as [[x y]|]; cbn [option_map fst snd]; [|reflexivity].
      now rewrite !Nat.iter_succ_r. }
  split; [|split].
  - rewrite frame_tilt. unfold s, tilt_of, tx, ty. cbn [lens lens_group option_map fst snd].
    rewrite !follow_R. do 2 f_equal; lra.
  - rewrite R1. unfold s, tilt_of, tx, ty. cbn [lens lens_group option_map fst snd].
    rewrite !follow_iter. do 2 f_equal; lra.
  - replace (repeat (mkRootState p, dt) n) with (map with_pointer (repeat (p, dt) n)).
    + now rewrite run_same.
    + clear. induction n as [|n IH]; [reflexivity|]. cbn [repeat map]. now rewrite IH.
Qed.

(** X5.  In real arithmetic, if the lens tilt starts within [0.12] radians
    of rest on both axes and every pointer sample lies in the square
    [[-1, 1] x [-1, 1]], then after any run of frames (any flag, any [dt]
    values, pointer samples changing freely) the tilt is still within
    [0.12] radians on both axes; in both variants. *)
Theorem tilt_stays_within_limit :
  forall (rm : bool) (inputs : list (Pointer R * R)) (s : Scene R),
    Forall (fun i => in_square (fst i)) inputs ->
    tilt_within 0.12 s ->
    tilt_within 0.12 (ThreeIrisBG.run rm inputs s) /\
    tilt_within 0.12 (ThreeIris.run rm (map with_pointer inputs) s).
Proof.
  intros rm inputs s Hin Hs. rewrite run_same.
  split; now apply run_keeps_tilt_within.
Qed.

Lemma tilt_stays_within_limit_witness :
  Forall (fun i : Pointer R * R => in_square (fst i)) [(mkPointer 1 (-1), 0.016)] /\
  tilt_within 0.12 (scene0 (F:=R)) /\
  tilt_within 0.12 (ThreeIrisBG.run false [(mkPointer 1 (-1), 0.016)] scene0).
Proof.
  assert (Hin : Forall (fun i : Pointer R * R => in_square (fst i))
                       [(mkPointer 1 (-1), 0.016)]).
  { repeat constructor; cbn; lra. }
  assert (Hs : tilt_within 0.12 (scene0 (F:=R))).
  { unfold tilt_within. cbn. unfold R_of_Q. cbn. lra. }
  split; [exact Hin|]. split; [exact Hs|].
  exact (proj1 (@tilt_stays_within_limit false _ _ Hin Hs)).
Defined.

(** The invariant of the event loop: the sample is in the square and the
    tilt within the limit. *)
Lemma handle_keeps_invariant (rm : bool) (c : Component R) (ev : Event R) :
  event_in_viewport ev ->
  in_square (pointerRef c) /\ tilt_within 0.12 (scene c) ->
  in_square (pointerRef (handle rm c ev)) /\ tilt_within 0.12 (scene (handle rm c ev)).
Proof.
  intros Hev [Hp Hs]. destruct ev as [w e|dt]; cbn [handle pointerRef scene].
  - split; [now apply onMove_in_square|exact Hs].
  - split; [exact Hp|now apply frame_keeps_tilt_within].
Qed.

(** X6.  In real arithmetic, for the mounted [ThreeIrisBG] component
    started from its initial state: as long as every mouse event lies
    inside the (non-degenerate) viewport, after any interleaving of mouse
    moves and rendered frames the pointer sample lies in the square
    [[-1, 1] x [-1, 1]] and the lens tilt is within [0.12] radians of rest
    on both axes. *)
Theorem mounted_tilt_bounded :
  forall (rm : bool) (events : list (Event R)),
    Forall event_in_viewport events ->
    let c := exec rm events component0 in
    in_square (pointerRef c) /\ tilt_within 0.12 (scene c).
Proof.
  intros rm events Hev c. unfold c, exec.
  assert (I0 : in_square (pointerRef (component0 (F:=R))) /\
               tilt_within 0.12 (scene (component0 (F:=R)))).
  { unfold component0, ViewportPointer.initial, in_square, tilt_within.
    cbn. unfold R_of_Q. cbn. lra. }
  revert I0. generalize (component0 (F:=R)) as c0.
  induction Hev as [|ev events Hev _ IH]; intros c0 I0; cbn [fold_left]; [exact I0|].
  apply IH. now apply handle_keeps_invariant.
Qed.

Lemma mounted_tilt_bounded_witness :
  Forall event_in_viewport
    [MouseMove (mkViewport 800 600) (mkMouseEvent 800 0); RenderFrame 0.016] /\
  tilt_within 0.12
    (scene (exec false
              [MouseMove (mkViewport 800 600) (mkMouseEvent 800 0); RenderFrame 0.016]
              component0)).
Proof.
  assert (Hev : Forall event_in_viewport
                  [MouseMove (mkViewport 800 600) (mkMouseEvent 800 0);
                   RenderFrame 0.016]).
  { repeat constructor; cbn; lra. }
  split; [exact Hev|].
  exact (proj2 (@mounted_tilt_bounded false _ Hev)).
Defined.

(** ** Time and rotation about z *)

Lemma run_elapsed (inputs : list (Pointer R * R)) :
  forall (t : R) (rg lg : Euler R),
    let s := ThreeIrisBG.run false inputs (mkScene (Some rg) (mkLens t (Some lg))) in
    u_time (lens s) = t + elapsed inputs /\
    rings_rot (@rot_z R) s = Some (rot_z rg + 0.03 * elapsed inputs) /\
    lens_rot (@rot_z R) s = Some (rot_z lg + 0.1 * elapsed inputs).
Proof.
  unfold ThreeIrisBG.run, elapsed.
  induction inputs as [|[p dt] inputs IH]; intros t rg lg; cbn [fold_left map snd fold_right].
  - unfold rings_rot, lens_rot. cbn [rings_group lens u_time lens_group option_map rot_z].
    split; [lra|]. split; apply f_equal; lra.
  - assert (E : ThreeIrisBG.frame false (mkScene (Some rg) (mkLens t (Some lg))) (p, dt) =
                 mkScene
                   (Some (mkEuler (rot_x rg) (rot_y rg) (rot_z rg + dt * 0.03)))
                   (mkLens (t + dt)
                      (Some (mkEuler (follow (ptr_y p) (rot_x lg))
                                     (follow (ptr_x p) (rot_y lg))
                                     (rot_z lg + dt * 0.1))))).
    { unfold ThreeIrisBG.frame. cbn [rings_group lens].
      rewrite lens_useFrame_attached.
      cbn [ThreeIrisBG.NeuralRings_useFrame negb jadd jmul lit R_number].
      unfold R_of_Q. cbn [Qnum Qden].
      reflexivity. }
    rewrite E.
    destruct (IH (t + dt)
                 (mkEuler (rot_x rg) (rot_y rg) (rot_z rg + dt * 0.03))
                 (mkEuler (follow (ptr_y p) (rot_x lg)) (follow (ptr_x p) (rot_y lg))
                          (rot_z lg + dt * 0.1)))
      as (E1 & E2 & E3).
    cbv zeta. rewrite E1, E2, E3. cbn [rot_z].
    split; [lra|]. split; apply f_equal; lra.
Qed.

(** X7.  In real arithmetic, with motion enabled and both groups attached,
    after any run of frames the shader time has advanced by the total
    elapsed time, the lens group has turned about z by [0.1] times it and
    the ring group by [0.03] times it: these depend only on the sum of the
    [dt] values, not on how time is cut into frames or on the pointer; in
    both variants. *)
Theorem rotation_follows_elapsed_time :
  forall (inputs : list (Pointer R * R)) (t : R) (rg lg : Euler R),
    let s0 := mkScene (Some rg) (mkLens t (Some lg)) in
    let after (s : Scene R) :=
      u_time (lens s) = t + elapsed inputs /\
      rings_rot (@rot_z R) s = Some (rot_z rg + 0.03 * elapsed inputs) /\
      lens_rot (@rot_z R) s = Some (rot_z lg + 0.1 * elapsed inputs) in
    after (ThreeIrisBG.run false inputs s0) /\
    after (ThreeIris.run false (map with_pointer inputs) s0).
Proof.
  intros inputs t rg lg s0 after. rewrite run_same.
  split; apply run_elapsed.
Qed.

End TiltBounds.

(** ** Edge cases of the frame driver *)

Lemma js_or_falsy (c : float) : nan_or_zero c -> js_or c (lit 0) = lit 0.
Proof.
  intros Hc. unfold js_or. cbn [truthy float_number]. unfold float_truthy.
  destruct Hc as [-> | ->]; [reflexivity|]. now rewrite orb_true_r.
Qed.

Lemma follow_falsy (c a : float) : nan_or_zero c -> follow c a = follow (lit 0) a.
Proof.
  intro Hc. unfold follow. rewrite (js_or_falsy Hc).
  replace (js_or (lit 0 : float) (lit 0)) with (lit 0 : float); [reflexivity|].
  vm_compute. reflexivity.
Qed.



Section Detached.
Context {F : Type} `{JSNumber F}.

Lemma frame_detached (rm : bool) (t : F) (p : Pointer F) (dt : F) :
  ThreeIrisBG.frame rm (mkScene None (mkLens t None)) (p, dt) =
  mkScene None (mkLens (if rm then t else jadd t dt) None).
Proof.
  unfold ThreeIrisBG.frame. cbn [rings_group lens].
  now rewrite lens_useFrame_detached.
Qed.

Lemma run_detached (rm : bool) (inputs : list (Pointer F * F)) :
  forall t : F,
    ThreeIrisBG.run rm inputs (mkScene None (mkLens t None)) =
    mkScene None (mkLens (if rm then t else fold_left jadd (map snd inputs) t) None).
Proof.
  unfold ThreeIrisBG.run.
  induction inputs as [|[p dt] inputs IH]; intro t; cbn [fold_left map snd].
  - destruct rm; reflexivity.
  - rewrite frame_detached, IH. destruct rm; reflexivity.
Qed.

Lemma frame_rings_xy (rm : bool) (s : Scene F) (i : Pointer F * F) :
  rings_rot (@rot_x F) (ThreeIrisBG.frame rm s i) = rings_rot (@rot_x F) s /\
  rings_rot (@rot_y F) (ThreeIrisBG.frame rm s i) = rings_rot (@rot_y F) s.
Proof.
  destruct i as [p dt], s as [[rg|] l], rm; split; reflexivity.
Qed.

End Detached.

(** X9.  While the group refs are not attached ([group.current] is null),
    frames rotate nothing and attach nothing: a run leaves both groups
    absent and only accumulates the shader time (the [dt] values added in
    order when motion is enabled, nothing under reduced motion); in both
    variants and either arithmetic. *)
Theorem detached_groups_untouched :
  forall (F : Type) (N : JSNumber F) (rm : bool)
         (inputs : list (Pointer F * F)) (t : F),
    let s' :=
      mkScene None
        (mkLens (if rm then t else fold_left jadd (map snd inputs) t) None) in
    ThreeIrisBG.run rm inputs (mkScene None (mkLens t None)) = s' /\
    ThreeIris.run rm (map with_pointer inputs) (mkScene None (mkLens t None)) = s'.
Proof.
  intros F N rm inputs t s'. rewrite run_same.
  split; apply run_detached.
Qed.

(** X10.  The ring group only ever turns about z: after any run of frames,
    with any flag, pointer samples and [dt] values, its rotation about x
    and about y is what it was; in both variants and either arithmetic. *)
Theorem rings_turn_only_about_z :
  forall (F : Type) (N : JSNumber F) (rm : bool)
         (inputs : list (Pointer F * F)) (s : Scene F),
    let same_xy (s' : Scene F) :=
      rings_rot (@rot_x F) s' = rings_rot (@rot_x F) s /\
      rings_rot (@rot_y F) s' = rings_rot (@rot_y F) s in
    same_xy (ThreeIrisBG.run rm inputs s) /\
    same_xy (ThreeIris.run rm (map with_pointer inputs) s).
Proof.
  intros F N rm inputs s same_xy. rewrite run_same.
  assert (HBG : same_xy (ThreeIrisBG.run rm inputs s)).
  { unfold same_xy, ThreeIrisBG.run. clear same_xy. revert s.
    induction inputs as [|i inputs IH]; intro s; cbn [fold_left]; [split; reflexivity|].
    destruct (IH (ThreeIrisBG.frame rm s i)) as [Ex Ey].
    destruct (frame_rings_xy rm s i) as [Fx Fy].
    split; congruence. }
  split; exact HBG.
Qed.

(** ** Further properties of the fragment shader *)

Section ShaderRange.
Import GLSL.
Local Open Scope R_scope.

Lemma clamp_unit (x : R) : 0 <= clamp x 0 1 <= 1.
Proof.
  unfold clamp, Rmin, Rmax.
  destruct (Rle_dec x 0), (Rle_dec _ 1); lra.
Qed.

Lemma clamp_monotone (x y : R) : x <= y -> clamp x 0 1 <= clamp y 0 1.
Proof.
  intro Hxy. unfold clamp, Rmin, Rmax.
  destruct (Rle_dec x 0), (Rle_dec y 0);
    repeat match goal with |- context [Rle_dec ?a ?b] => destruct (Rle_dec a b) end;
    lra.
Qed.

Lemma hermite_unit (t : R) : 0 <= t <= 1 -> 0 <= t * t * (3 - 2 * t) <= 1.
Proof.
  intros [H0 H1]. split.
  - apply Rmult_le_pos; [apply Rmult_le_pos|]; lra.
  - assert (E : 1 - t * t * (3 - 2 * t) = (1 - t) * (1 - t) * (1 + 2 * t)) by ring.
    assert (P : 0 <= (1 - t) * (1 - t) * (1 + 2 * t))
      by (apply Rmult_le_pos; [apply Rmult_le_pos|]; lra).
    lra.
Qed.

Lemma hermite_monotone (s t : R) :
  0 <= s -> s <= t -> t <= 1 -> s * s * (3 - 2 * s) <= t * t * (3 - 2 * t).
Proof.
  intros H0 Hst H1.
  assert (E : t * t * (3 - 2 * t) - s * s * (3 - 2 * s) =
              (t - s) * (3 * (t + s) - 2 * (t * t + t * s + s * s))) by ring.
  assert (P : 0 <= 3 * (t + s) - 2 * (t * t + t * s + s * s)) by nra.
  assert (Q : 0 <= (t - s) * (3 * (t + s) - 2 * (t * t + t * s + s * s)))
    by (apply Rmult_le_pos; lra).
  lra.
Qed.

Lemma smoothstep_unit (e0 e1 x : R) : 0 <= smoothstep e0 e1 x <= 1.
Proof. unfold smoothstep. apply hermite_unit, clamp_unit. Qed.

Lemma lerp_between (lo hi a b w : R) :
  lo <= a <= hi -> lo <= b <= hi -> 0 <= w <= 1 -> lo <= lerp a b w <= hi.
Proof.
  intros Ha Hb Hw. unfold lerp.
  replace (a + (b - a) * w) with ((1 - w) * a + w * b) by ring.
  split; nra.
Qed.

Lemma wave_unit (x : R) : 0 <= sin x * 0.5 + 0.5 <= 1.
Proof. pose proof (SIN_bound x). lra. Qed.

Lemma main_Iris_BG (atan_origin : R) (u : uniforms) (vUv : vec2) :
  main_Iris atan_origin u vUv = main_BG atan_origin u vUv.
Proof. reflexivity. Qed.

(** The colour the shader writes, as a darkened two-stage blend. *)
Lemma main_BG_blend (atan_origin : R) (u : uniforms) (vUv : vec2) :
  exists w g k : R,
    0 <= w <= 1 /\ 0 <= g <= 0.08 /\ 0.2 <= k <= 1 /\
    rgb (main_BG atan_origin u vUv) =
    scale3 (lerp3 (lerp3 (u_primary u) (u_secondary u) w) (u_glint u) g) k.
Proof.
  unfold main_BG. cbv zeta. cbn [rgb].
  set (r := x2 (toPolar _ _)). set (a := y2 (toPolar _ _)).
  set (s1 := sin (a * 32 + r * 24 - u_time u * 0.6) * 0.5 + 0.5).
  set (s2 := sin (a * 96 - u_time u * 0.9) * 0.5 + 0.5).
  set (m := smoothstep 0.68 0.86 r).
  set (s3 := sin (a * 6 + u_time u * 0.7)).
  set (v := smoothstep 0 0.1 r).
  exists (s1 * 0.7 + s2 * 0.3), (m * (0.7 + 0.3 * s3) * 0.08), (mix 0.2 1 v).
  assert (H1 : 0 <= s1 <= 1) by apply wave_unit.
  assert (H2 : 0 <= s2 <= 1) by apply wave_unit.
  assert (Hm : 0 <= m <= 1) by apply smoothstep_unit.
  assert (Hv : 0 <= v <= 1) by apply smoothstep_unit.
  assert (H3 : -1 <= s3 <= 1) by apply SIN_bound.
  split; [lra|]. split; [split; nra|]. split.
  - rewrite mix_lerp. apply lerp_between; lra.
  - now rewrite !mix3_lerp3.
Qed.

Lemma lerp3_ok (a b : vec3) (w : R) :
  colour_ok a -> colour_ok b -> 0 <= w <= 1 -> colour_ok (lerp3 a b w).
Proof.
  intros (A1 & A2 & A3) (B1 & B2 & B3) Hw. unfold colour_ok, lerp3. cbn [x3 y3 z3].
  repeat split; apply (lerp_between (lo := 0) (hi := 1)); assumption.
Qed.

Lemma scale3_ok (c : vec3) (k : R) : colour_ok c -> 0 <= k <= 1 -> colour_ok (scale3 c k).
Proof.
  intros (C1 & C2 & C3) Hk. unfold colour_ok, scale3. cbn [x3 y3 z3].
  repeat split; nra.
Qed.

(** X11.  In real arithmetic the shader writes a valid colour: whenever
    the three colour uniforms have their channels in [[0, 1]], every colour
    channel and the alpha of the output lie in [[0, 1]], at every [uv] and
    time, in both variants.  The colour is the primary/secondary blend,
    blended with the glint colour by a weight of at most [0.08] and scaled
    by a vignette factor in [[0.2, 1]]. *)
Theorem shader_output_is_valid_colour :
  forall (atan_origin : R) (u : uniforms) (vUv : vec2),
    colour_ok (u_primary u) -> colour_ok (u_secondary u) -> colour_ok (u_glint u) ->
    let out := main_BG atan_origin u vUv in
    colour_ok (rgb out) /\ 0 <= alpha out <= 1 /\
    main_Iris atan_origin u vUv = out /\
    exists w g k : R,
      0 <= w <= 1 /\ 0 <= g <= 0.08 /\ 0.2 <= k <= 1 /\
      rgb out = scale3 (lerp3 (lerp3 (u_primary u) (u_secondary u) w) (u_glint u) g) k.
Proof.
  intros atan_origin u vUv HP HS HG out. unfold out.
  destruct (main_BG_blend atan_origin u vUv) as (w & g & k & Hw & Hg & Hk & E).
  split; [|split; [|split]].
  - rewrite E. apply scale3_ok; [|lra].
    apply lerp3_ok; [apply lerp3_ok| |]; try assumption. lra.
  - unfold main_BG. cbv zeta. cbn [alpha]. apply smoothstep_unit.
  - apply main_Iris_BG.
  - exists w, g, k. now repeat split.
Qed.

Lemma shader_output_is_valid_colour_witness :
  let white := mkvec3 1 1 1 in
  let u := mkuniforms 0 white white white in
  colour_ok white /\ colour_ok (rgb (main_BG 0 u (mkvec2 0.5 0.5))).
Proof.
  assert (W : colour_ok (mkvec3 1 1 1)) by (unfold colour_ok; cbn; lra).
  split; [exact W|].
  exact (proj1 (@shader_output_is_valid_colour 0
                  (mkuniforms 0 (mkvec3 1 1 1) (mkvec3 1 1 1) (mkvec3 1 1 1))
                  (mkvec2 0.5 0.5) W W W)).
Defined.

Lemma glint_mask_inside (r : R) : r <= 0.68 -> smoothstep 0.68 0.86 r = 0.
Proof.
  intro Hr. unfold smoothstep.
  replace ((r - 0.68) / (0.86 - 0.68)) with ((r - 0.68) * (50 / 9)) by lra.
  rewrite clamp_below by lra. ring.
Qed.

(** X12.  In real arithmetic the glint colour has no influence inside
    radius [0.68]: at every [uv] whose centred coordinate has length at most
    [0.68], the output is the same whatever the glint uniform is, in both
    variants. *)
Theorem glint_absent_inside :
  forall (atan_origin t : R) (P S G G' : vec3) (vUv : vec2),
    length (mkvec2 (x2 vUv * 2 - 1) (y2 vUv * 2 - 1)) <= 0.68 ->
    main_BG atan_origin (mkuniforms t P S G) vUv =
      main_BG atan_origin (mkuniforms t P S G') vUv /\
    main_Iris atan_origin (mkuniforms t P S G) vUv =
      main_Iris atan_origin (mkuniforms t P S G') vUv.
Proof.
  intros atan_origin t P S G G' vUv Hr.
  assert (E : main_BG atan_origin (mkuniforms t P S G) vUv =
              main_BG atan_origin (mkuniforms t P S G') vUv).
  { unfold main_BG, toPolar. cbv zeta.
    cbn [x2 y2 u_time u_primary u_secondary u_glint].
    rewrite (glint_mask_inside Hr).
    rewrite !Rmult_0_l. unfold mix3, mix. cbn [x3 y3 z3].
    f_equal. f_equal. f_equal; ring. }
  split; [exact E|]. now rewrite !main_Iris_BG.
Qed.

Lemma glint_absent_inside_witness :
  length (mkvec2 (0.5 * 2 - 1) (0.5 * 2 - 1)) <= 0.68 /\
  main_BG 0 (mkuniforms 0 (mkvec3 0 0 1) (mkvec3 0 1 1) (mkvec3 1 0 0)) (mkvec2 0.5 0.5) =
  main_BG 0 (mkuniforms 0 (mkvec3 0 0 1) (mkvec3 0 1 1) (mkvec3 0 1 0)) (mkvec2 0.5 0.5).
Proof.
  assert (H : length (mkvec2 (0.5 * 2 - 1) (0.5 * 2 - 1)) <= 0.68).
  { unfold length. cbn [x2 y2].
    replace ((0.5 * 2 - 1) * (0.5 * 2 - 1) + (0.5 * 2 - 1) * (0.5 * 2 - 1)) with 0 by lra.
    rewrite sqrt_0. lra. }
  split; [exact H|].
  exact (proj1 (@glint_absent_inside 0 0 (mkvec3 0 0 1) (mkvec3 0 1 1)
                  (mkvec3 1 0 0) (mkvec3 0 1 0) (mkvec2 0.5 0.5) H)).
Defined.

Lemma sin_shift_back (x : R) (k : nat) : sin (x - 2 * INR k * PI) = sin x.
Proof.
  rewrite <- (sin_period (x - 2 * INR k * PI) k). f_equal. ring.
Qed.

(** X13.  In real arithmetic the animation repeats every [20 * PI] seconds
    of shader time (about 62.8 s): advancing [u_time] by [20 * PI] leaves
    the output unchanged at every [uv], in both variants. *)
Theorem shader_time_period :
  forall (atan_origin t : R) (P S G : vec3) (vUv : vec2),
    main_BG atan_origin (mkuniforms (t + 20 * PI) P S G) vUv =
      main_BG atan_origin (mkuniforms t P S G) vUv /\
    main_Iris atan_origin (mkuniforms (t + 20 * PI) P S G) vUv =
      main_Iris atan_origin (mkuniforms t P S G) vUv.
Proof.
  intros atan_origin t P S G vUv.
  assert (E : main_BG atan_origin (mkuniforms (t + 20 * PI) P S G) vUv =
              main_BG atan_origin (mkuniforms t P S G) vUv).
  { unfold main_BG, toPolar. cbv zeta.
    cbn [x2 y2 u_time u_primary u_secondary u_glint].
    set (r := length _). set (a := atan2 atan_origin _ _).
    replace (a * 32 + r * 24 - (t + 20 * PI) * 0.6)
      with (a * 32 + r * 24 - t * 0.6 - 2 * INR 6 * PI) by (simpl INR; lra).
    replace (a * 96 - (t + 20 * PI) * 0.9)
      with (a * 96 - t * 0.9 - 2 * INR 9 * PI) by (simpl INR; lra).
    replace (a * 6 + (t + 20 * PI) * 0.7)
      with (a * 6 + t * 0.7 + 2 * INR 7 * PI) by (simpl INR; lra).
    now rewrite !sin_shift_back, sin_period. }
  split; [exact E|]. now rewrite !main_Iris_BG.
Qed.

(** X14.  In real arithmetic the alpha channel never increases with the
    radius: the disc fades out monotonically towards its rim. *)
Theorem alpha_fades_outwards :
  forall r1 r2 : R, r1 <= r2 -> alpha_of r2 <= alpha_of r1.
Proof.
  intros r1 r2 Hr. unfold alpha_of, smoothstep. rewrite !alpha_parameter.
  set (t1 := clamp ((0.99 - r1) * (100 / 3)) 0 1).
  set (t2 := clamp ((0.99 - r2) * (100 / 3)) 0 1).
  assert (H12 : t2 <= t1) by (apply clamp_monotone; lra).
  pose proof (clamp_unit ((0.99 - r1) * (100 / 3))) as U1.
  pose proof (clamp_unit ((0.99 - r2) * (100 / 3))) as U2.
  fold t1 in U1. fold t2 in U2.
  apply hermite_monotone; lra.
Qed.

Lemma alpha_fades_outwards_witness :
  0.97 <= 0.98 /\ alpha_of 0.98 <= alpha_of 0.97.
Proof.
  assert (H : 0.97 <= 0.98) by lra.
  split; [exact H|]. exact (@alpha_fades_outwards 0.97 0.98 H).
Defined.

End ShaderRange.

(** ** Further properties of the reduced-motion query *)

(** X15.  Whenever [useReducedMotion] of [ThreeIrisBG.jsx] completes
    normally, so does that of [ThreeIris.jsx], with the same truth value;
    the latter always returns a boolean.  The converse fails: on a window
    whose [matchMedia] is [false], the optional call of [ThreeIrisBG.jsx]
    throws a [TypeError] while the [&&] chain of [ThreeIris.jsx] returns
    [false]. *)
Theorem reduced_motion_variants_agree :
  (forall (env : Host.environment) (v : Host.value),
      ThreeIrisBG.useReducedMotion env = Host.Normal v ->
      ThreeIris.useReducedMotion env = Host.Normal (Host.VBool (Host.to_boolean v))) /\
  (forall (env : Host.environment) (v : Host.value),
      ThreeIris.useReducedMotion env = Host.Normal v -> exists b, v = Host.VBool b) /\
  (forall prop : string -> Host.value,
      prop "matchMedia"%string = Host.VBool false ->
      ThreeIrisBG.useReducedMotion (Some (Host.VObject prop)) = Host.TypeError /\
      ThreeIris.useReducedMotion (Some (Host.VObject prop)) =
        Host.Normal (Host.VBool false)).
Proof.
  split; [|split].
  - intros [window|] v; [|intro E; injection E as <-; reflexivity].
    unfold ThreeIrisBG.useReducedMotion, ThreeIris.useReducedMotion.
    destruct window as [| |b|prop|f]; cbn;
      try discriminate; try (intro E; injection E as <-; reflexivity).
    destruct (prop "matchMedia"%string) as [| |b|prop'|g]; cbn;
      try discriminate; try (intro E; injection E as <-; reflexivity).
    destruct (g Host.query) as [| |b|prop'|g']; cbn;
      try discriminate; try (intro E; injection E as <-; reflexivity).
    unfold Host.or_else.
    destruct (Host.to_boolean (prop' "matches"%string)) eqn:T;
      intro E; injection E as <-; cbn; now rewrite ?T.
  - intros env v. unfold ThreeIris.useReducedMotion.
    destruct (match env with None => _ | Some _ => _ end) as [p|]; cbn [Host.bind];
      [|discriminate].
    intro E. injection E as <-. eexists. reflexivity.
  - intros prop E.
    unfold ThreeIrisBG.useReducedMotion, ThreeIris.useReducedMotion.
    cbn [Host.get Host.bind]. rewrite E. split; reflexivity.
Qed.

(** X16.  When [window.matchMedia] is a function and its result for the
    query ["(prefers-reduced-motion: reduce)"] is an object, both variants
    complete normally and the flag they return is the truth value of that
    object's [matches] property. *)
Theorem reduced_motion_query_answer :
  forall (prop result : string -> Host.value) (g : string -> Host.value),
    prop "matchMedia"%string = Host.VFunction g ->
    g "(prefers-reduced-motion: reduce)"%string = Host.VObject result ->
    let m := result "matches"%string in
    let window := Some (Host.VObject prop) in
    ThreeIrisBG.useReducedMotion window =
      Host.Normal (if Host.to_boolean m then m else Host.VBool false) /\
    ThreeIris.useReducedMotion window = Host.Normal (Host.VBool (Host.to_boolean m)).
Proof.
  intros prop result g Hmm Hg m window.
  unfold window, ThreeIrisBG.useReducedMotion, ThreeIris.useReducedMotion.
  cbn [Host.get Host.bind]. rewrite Hmm.
  cbn [Host.is_nullish Host.and_then Host.to_boolean Host.call Host.bind].
  unfold Host.query. rewrite Hg. cbn [Host.get Host.bind]. fold m.
  split; [|reflexivity].
  unfold Host.or_else. destruct (Host.to_boolean m); reflexivity.
Qed.

Lemma reduced_motion_query_answer_witness :
  let result := fun _ : string => Host.VBool true in
  let g := fun _ : string => Host.VObject result in
  let prop := fun _ : string => Host.VFunction g in
  ThreeIrisBG.useReducedMotion (Some (Host.VObject prop)) =
    Host.Normal (Host.VBool true).
Proof.
  exact (proj1 (@reduced_motion_query_answer
                  (fun _ => Host.VFunction (fun _ => Host.VObject (fun _ => Host.VBool true)))
                  (fun _ => Host.VBool true)
                  (fun _ => Host.VObject (fun _ => Host.VBool true))
                  eq_refl eq_refl)).
Defined.

(** ** Further properties of the ring geometry *)

Section RingsRegular.
Local Open Scope R_scope.

Lemma chord2 (r a b : R) :
  dist2 (mkVector3 (cos a * r) (sin a * r) (-0.2))
        (mkVector3 (cos b * r) (sin b * r) (-0.2)) =
  2 * (r * r) * (1 - cos (b - a)).
Proof.
  unfold dist2. cbn [vx vy]. rewrite cos_minus.
  pose proof (sin2_cos2 a) as Ea. pose proof (sin2_cos2 b) as Eb.
  unfold Rsqr in Ea, Eb.
  replace ((cos a * r - cos b * r) * (cos a * r - cos b * r) +
           (sin a * r - sin b * r) * (sin a * r - sin b * r))
    with (r * r * ((sin a * sin a + cos a * cos a) + (sin b * sin b + cos b * cos b)
                   - 2 * (cos b * cos a + sin b * sin a))) by ring.
  rewrite Ea, Eb. ring.
Qed.

(** X17.  In real arithmetic every ring polyline is a regular 180-gon:
    each of its 180 segments joins two consecutive vertices at the same
    squared distance [2 * R^2 * (1 - cos (PI / 90))], where [R] is the
    radius of the ring. *)
Theorem ring_segments_equal :
  forall i j : nat,
    (j < 180)%nat ->
    exists p q : Vector3 R,
      nth_error (points (ring (F:=R) i)) j = Some p /\
      nth_error (points (ring (F:=R) i)) (S j) = Some q /\
      dist2 p q = 2 * (radius (ring (F:=R) i) * radius (ring (F:=R) i))
                  * (1 - cos (PI / 90)).
Proof.
  intros i j Hj.
  exists (ring_point (radius (ring i)) j), (ring_point (radius (ring i)) (S j)).
  rewrite !ring_vertex by (unfold steps; lia).
  split; [reflexivity|]. split; [reflexivity|].
  rewrite !ring_point_R, chord2.
  replace (INR (S j) / 180 * PI * 2 - INR j / 180 * PI * 2) with (PI / 90)
    by (rewrite S_INR; lra).
  reflexivity.
Qed.

Lemma ring_segments_equal_witness :
  (0 < 180)%nat /\
  exists p q : Vector3 R,
    nth_error (points (ring (F:=R) 0)) 0 = Some p /\
    nth_error (points (ring (F:=R) 0)) 1 = Some q /\
    dist2 p q = 2 * (radius (ring (F:=R) 0) * radius (ring (F:=R) 0))
                * (1 - cos (PI / 90)).
Proof.
  assert (H : (0 < 180)%nat) by lia.
  split; [exact H|]. exact (@ring_segments_equal 0%nat 0%nat H).
Defined.

End RingsRegular.

(** ** The mouse listener *)

Section Listeners.
Import ViewportPointer.

Lemma filter_none_matching (A : Type) (g : A -> bool) (l : list A) :
  existsb g l = false -> filter (fun x => negb (g x)) l = l.
Proof.
  induction l as [|x l IH]; cbn [existsb filter]; [reflexivity|].
  intro E. apply orb_false_elim in E as [Ex El].
  rewrite Ex, IH by exact El. reflexivity.
Qed.

(** X18.  Unmounting undoes mounting: if the handler is not yet registered
    for ["mousemove"], then registering it (passively) and later removing it
    (without options) leaves the window's listeners exactly as they were;
    the removal matches although its options differ, because the passive
    flag is no part of a listener's identity. *)
Theorem listener_removed_on_cleanup :
  forall (onMove : nat) (ls : list Listener),
    existsb (same_listener "mousemove" onMove false) ls = false ->
    cleanup onMove (mount onMove ls) = ls /\
    In (mkListener "mousemove" onMove false true) (mount onMove ls).
Proof.
  intros onMove ls Hfresh. unfold cleanup, mount, addEventListener, removeEventListener.
  cbn [event_type callback capture]. rewrite Hfresh. split.
  - rewrite filter_app. cbn [filter].
    assert (S : same_listener "mousemove" onMove false
                  (mkListener "mousemove" onMove false true) = true).
    { unfold same_listener. cbn [event_type callback capture].
      now rewrite String.eqb_refl, Nat.eqb_refl. }
    rewrite S. cbn [negb]. rewrite app_nil_r.
    now apply filter_none_matching.
  - apply in_or_app. right. left. reflexivity.
Qed.

Lemma listener_removed_on_cleanup_witness :
  existsb (same_listener "mousemove" 1 false) [mkListener "resize" 0 false false] = false /\
  cleanup 1 (mount 1 [mkListener "resize" 0 false false]) =
    [mkListener "resize" 0 false false].
Proof.
  assert (H : existsb (same_listener "mousemove" 1 false)
                [mkListener "resize" 0 false false] = false) by reflexivity.
  split; [exact H|].
  exact (proj1 (@listener_removed_on_cleanup 1 [mkListener "resize" 0 false false] H)).
Defined.

End Listeners.

(** ** The frame loop the component requests *)

(** X19.  The canvas of [ThreeIrisBG] renders on demand exactly when the
    host's media query matches: [window.matchMedia] is a function, its
    result for the query is an object, and that object's [matches] is
    truthy.  In an environment that cannot answer the query (no [window],
    or no [matchMedia] on it) it renders continuously. *)
Theorem demand_rendering_iff_query_matches :
  forall env : Host.environment,
    (ThreeIrisBG_canvas_frameloop env = Some Demand <->
     exists (prop result : string -> Host.value) (g : string -> Host.value),
       env = Some (Host.VObject prop) /\
       prop "matchMedia"%string = Host.VFunction g /\
       g Host.query = Host.VObject result /\
       Host.to_boolean (result "matches"%string) = true) /\
    (cannot_answer env -> ThreeIrisBG_canvas_frameloop env = Some Always).
Proof.
  intro env. split; [split|].
  - unfold ThreeIrisBG_canvas_frameloop, ThreeIrisBG.useReducedMotion.
    destruct env as [[| |b|prop|f]|]; cbn; try discriminate.
    destruct (prop "matchMedia"%string) as [| |b|prop'|g] eqn:Emm; cbn;
      try discriminate.
    destruct (g Host.query) as [| |b|result|g'] eqn:Eg; cbn; try discriminate.
    unfold Host.or_else.
    destruct (Host.to_boolean (result "matches"%string)) eqn:T; cbn;
      [|discriminate].
    intros _. exists prop, result, g. now repeat split.
  - intros (prop & result & g & -> & Emm & Eg & T).
    unfold ThreeIrisBG_canvas_frameloop, ThreeIrisBG.useReducedMotion.
    cbn [Host.get Host.bind]. rewrite Emm.
    cbn [Host.is_nullish Host.call Host.bind]. rewrite Eg.
    cbn [Host.get Host.bind]. unfold Host.or_else. rewrite T. cbn. now rewrite T.
  - intros [->|[prop [-> Hnull]]]; [reflexivity|].
    unfold ThreeIrisBG_canvas_frameloop, ThreeIrisBG.useReducedMotion.
    cbn [Host.get Host.bind].
    destruct (prop "matchMedia"%string); try discriminate Hnull; reflexivity.
Qed.

